(** * EasyPQP command line: the [reduce], [library] and [convert] commands

    Shallow embedding of [easypqp/main.py].

    - [reduce] works on a PQP file, a SQLite database.  Tables are lists of
      rows in stored (rowid) order; only the columns the command touches are
      kept.  The file system, the SQLite connection and the sequence of
      effects are explicit state, threaded by a small state-and-exception
      monad.
    - The pandas calls of [reduce] ([pd.cut] with an integer bin count,
      [groupby(..).head(n)]) are embedded in module [pd] after
      pandas/core/reshape/tile.py and pandas/core/groupby/groupby.py.
    - [LIBRARY_RT] is a SQL REAL, a double, read here as the rational it
      is; NULL / NaN values are outside the model.  Doubles compare as
      these rationals do; what differs is the arithmetic of the bin edges.
      [reduce_with] takes [pd.cut] as a parameter, and what is proved of
      it holds for the labels of any [pd.cut]; [reduce] runs it with the
      edges of exact arithmetic, [reduce_float64] with the edges numpy and
      pandas compute in float64 (modules [numpy] and [tile]).
    - A path is the resolved name of its file: paths that differ name
      files that differ.  A PQP file has the seven tables of the schema or
      none of them.
    - [library] only forwards its options to [generate] (easypqp/library.py),
      which is a parameter of the embedding, as is pyprophet's
      [transform_pi0_lambda].
    - [convert] parses its exclude range, calls [conversion]
      (easypqp/convert.py, a parameter) and pickles the two frames; it has
      a world of its own, the pickles written and the lines printed.
    - [transform_comma_string_to_list] is [str.split] at the commas. *)

From Stdlib Require Import QArith Qabs Lqa ZArith Lia Ascii SpecFloat.
From stdpp Require Import gmap strings list sorting.

(** ** Exceptions *)

Inductive exn : Type :=
| SameFileError
| FileNotFoundError
| DatabaseError (msg : string)
| OperationalError (msg : string)
| ValueError (msg : string)
| ProgrammingError (msg : string)
| ClickException (msg : string)
| ImportError (msg : string).

(** ** Rows of the PQP tables *)

(** The key columns are [INT ... NOT NULL] in the PQP schema: integers.
    [DECOY] is an integer flag. *)

Module Protein.
Record t : Type := { ID : Z }.
End Protein.

Module Peptide.
Record t : Type := { ID : Z }.
End Peptide.

Module PeptideProtein.
Record t : Type := { PEPTIDE_ID : Z; PROTEIN_ID : Z }.
End PeptideProtein.

Module Precursor.
Record t : Type := { ID : Z; LIBRARY_RT : Q; DECOY : Z }.
End Precursor.

Module PrecursorPeptide.
Record t : Type := { PRECURSOR_ID : Z; PEPTIDE_ID : Z }.
End PrecursorPeptide.

Module Transition.
Record t : Type := { ID : Z }.
End Transition.

Module TransitionPrecursor.
Record t : Type := { TRANSITION_ID : Z; PRECURSOR_ID : Z }.
End TransitionPrecursor.

(** A row of the [anchor_candidates] / [anchors] frames and of the
    [temp_anchors] table. *)
Module Anchor.
Record t : Type := { PRECURSOR_ID : Z; LIBRARY_RT : Q }.
End Anchor.

(** ** The pandas operations used by [reduce] *)

Module pd.

Definition Qmin2 (a b : Q) : Q := if Qle_bool a b then a else b.
Definition Qmax2 (a b : Q) : Q := if Qle_bool a b then b else a.

(** [x.min()] and [x.max()] of a non-empty array [x0 :: xs]. *)
Definition amin (x0 : Q) (xs : list Q) : Q := foldr Qmin2 x0 xs.
Definition amax (x0 : Q) (xs : list Q) : Q := foldr Qmax2 x0 xs.

(** [np.linspace(start, stop, div + 1, endpoint=True)]: the first [div]
    points are [start + i * step], the last one is set to [stop]. *)
Definition linspace (start stop : Q) (div : Z) : list Q :=
  let step := ((stop - start) / inject_Z div)%Q in
  fmap (λ i : nat, (start + inject_Z (Z.of_nat i) * step)%Q)
       (seq 0 (Z.to_nat div))
  ++ [stop].

(** [bins[-1] += adj] *)
Fixpoint add_last (bins : list Q) (adj : Q) : list Q :=
  match bins with
  | [] => []
  | [e] => [(e + adj)%Q]
  | e :: rest => e :: add_last rest adj
  end.

(** [_nbins_to_bins(x, nbins, right=False)]: the bin edges for an integer
    bin count.  The count is checked first, then the array; when all values
    are equal the end points are moved apart before the range is split,
    otherwise the last edge is moved up after it, so that the largest value
    falls below it.  (The values are rationals: the check for an infinite
    minimum or maximum has nothing to reject.) *)
Definition nbins_to_bins (x : list Q) (nbins : Z) : exn + list Q :=
  if (nbins <? 1)%Z then
    inl (ValueError "`bins` should be a positive integer.")
  else
    match x with
    | [] => inl (ValueError "Cannot cut empty array")
    | x0 :: xs =>
        let mn := amin x0 xs in
        let mx := amax x0 xs in
        if Qeq_bool mn mx then
          (* adjust end points before binning *)
          let mn' :=
            (mn - (if negb (Qeq_bool mn 0) then (1 # 1000) * Qabs mn
                   else 1 # 1000))%Q in
          let mx' :=
            (mx + (if negb (Qeq_bool mx 0) then (1 # 1000) * Qabs mx
                   else 1 # 1000))%Q in
          inr (linspace mn' mx' nbins)
        else
          (* adjust end points after binning *)
          let adj := ((mx - mn) * (1 # 1000))%Q in
          inr (add_last (linspace mn mx nbins) adj)
    end.

(** [bins.searchsorted(v, side="right")] on increasing [bins]: the number
    of leading edges that are [<= v]. *)
Fixpoint searchsorted_right (bins : list Q) (v : Q) : nat :=
  match bins with
  | [] => 0
  | e :: rest => if Qle_bool e v then S (searchsorted_right rest v) else 0
  end.

(** One entry of [_bins_to_cuts(x, bins, right=False, labels=False)]:
    [ids - 1], or NaN ([None]) when [ids == 0] or [ids == len(bins)]. *)
Definition bin_label (bins : list Q) (v : Q) : option Z :=
  let ids := searchsorted_right bins v in
  if (ids =? 0)%nat || (ids =? length bins)%nat then None
  else Some (Z.of_nat ids - 1)%Z.

(** [pd.cut(x, bins=bins, right=False, labels=False)] in exact arithmetic.
    The edges of [nbins_to_bins] above are strictly increasing, so the
    check of [_bins_to_cuts] for duplicate edges passes and is left out;
    [cut_with] below has it. *)
Definition cut (x : list Q) (bins : Z) : exn + list (option Z) :=
  match nbins_to_bins x bins with
  | inl e => inl e
  | inr edges => inr (fmap (bin_label edges) x)
  end.

(** [len(algos.unique(bins)) < len(bins)]: some edge occurs twice. *)
Fixpoint has_duplicates (bins : list Q) : bool :=
  match bins with
  | [] => false
  | e :: rest => existsb (Qeq_bool e) rest || has_duplicates rest
  end.

Section Cut.

(** [pd.cut] as pandas runs it.  The edges are computed in float64:
    [nbins_to_bins] stands for that computation, [repr] for the text numpy
    prints for an array.  The values are doubles, read as the rationals
    they are, and so are the edges; doubles compare as these rationals
    do. *)
Variable nbins_to_bins : list Q → Z → exn + list Q.
Variable repr : list Q → string.

(** [_bins_to_cuts(x, bins, right=False, labels=False)] with
    [duplicates='raise']: edges that are not all different are refused,
    unless there are just two of them. *)
Definition bins_to_cuts (x bins : list Q) : exn + list (option Z) :=
  if has_duplicates bins && negb (length bins =? 2)%nat then
    inl (ValueError ("Bin edges must be unique: " +:+ repr bins +:+ ".
You can drop duplicate edges by setting the 'duplicates' kwarg"))
  else inr (fmap (bin_label bins) x).

Definition cut_with (x : list Q) (bins : Z) : exn + list (option Z) :=
  match nbins_to_bins x bins with
  | inl e => inl e
  | inr edges => bins_to_cuts x edges
  end.

End Cut.

Section GroupBy.
Context {A : Type} (key : A → option Z).

(** [df.groupby(key).head(n)]: the rows whose position in their group lies
    in [slice(None, n)], in the order of [df]: the first [n] rows of each
    group for [n >= 0], all but the last [-n] for [n < 0] (as pandas does
    from version 1.4 on).  Rows with a NaN key belong to no group.  [seen]
    holds the rows before [rows]. *)
Fixpoint head_rows (n : Z) (df seen rows : list A) : list A :=
  match rows with
  | [] => []
  | r :: rest =>
      let keep :=
        match key r with
        | None => false
        | Some b =>
            let cumcount :=
              Z.of_nat (length (filter (λ r', key r' = Some b) seen)) in
            let size :=
              Z.of_nat (length (filter (λ r', key r' = Some b) df)) in
            if (0 <=? n)%Z then (cumcount <? n)%Z
            else (cumcount <? size + n)%Z
        end in
      (if keep then [r] else []) ++ head_rows n df (r :: seen) rest
  end.

Definition groupby_head (n : Z) (df : list A) : list A :=
  head_rows n df [] df.

End GroupBy.

End pd.

(** ** The bin edges in float64 *)

(** The doubles of numpy, on the binary floats of the Standard Library:
    every operation rounds to the nearest double, ties to even. *)
Module numpy.

Definition prec : Z := 53.
Definition emax : Z := 1024.

Definition float64 : Type := spec_float.

Definition add : float64 → float64 → float64 := SFadd prec emax.
Definition subtract : float64 → float64 → float64 := SFsub prec emax.
Definition multiply : float64 → float64 → float64 := SFmul prec emax.
Definition divide : float64 → float64 → float64 := SFdiv prec emax.

(** The double of an integer. *)
Definition float (z : Z) : float64 := binary_normalize prec emax z 0 false.

(** The double a rational stands for: the rational itself when it is a
    double, which is what the rows of a file hold. *)
Definition of_Q (q : Q) : float64 :=
  divide (float (Qnum q)) (float (Zpos (Qden q))).

(** The rational a finite double is.  (Infinities and NaN do not arise from
    retention times whose range is far from the largest double; they are
    outside the model.) *)
Definition to_Q (x : float64) : Q :=
  match x with
  | S754_finite s m e =>
      let m := cond_Zopp s (Zpos m) in
      match e with
      | Z0 => m # 1
      | Zpos p => (m * 2 ^ Zpos p) # 1
      | Zneg p => m # (2 ^ p)%positive
      end
  | _ => 0
  end.

(** [y[-1] = v] *)
Fixpoint set_last (y : list float64) (v : float64) : list float64 :=
  match y with
  | [] => []
  | [_] => [v]
  | e :: rest => e :: set_last rest v
  end.

(** [np.linspace(start, stop, num, endpoint=True)]:
    [arange(0, num) * step + start], two roundings for each entry, the last
    entry set to [stop]. *)
Definition linspace (start stop : float64) (num : Z) : list float64 :=
  let div := (num - 1)%Z in
  let delta := subtract stop start in
  let y := (λ i : nat, float (Z.of_nat i)) <$> seq 0 (Z.to_nat num) in
  let y :=
    if (0 <? div)%Z then
      let step := divide delta (float div) in
      if SFeqb step (float 0) then
        (* special handling for denormal numbers *)
        (λ i, multiply (divide i (float div)) delta) <$> y
      else (λ i, multiply i step) <$> y
    else (λ i, multiply i delta) <$> y in
  let y := (λ v, add v start) <$> y in
  if (1 <? num)%Z then set_last y stop else y.

End numpy.

(** pandas/core/reshape/tile.py in float64. *)
Module tile.

(** [bins[-1] += adj] *)
Fixpoint add_last (bins : list numpy.float64) (adj : numpy.float64)
  : list numpy.float64 :=
  match bins with
  | [] => []
  | [e] => [numpy.add e adj]
  | e :: rest => e :: add_last rest adj
  end.

(** [_nbins_to_bins(x, nbins, right=False)], as [pd.nbins_to_bins] above
    with the arithmetic of doubles; [0.001] is the double nearest to a
    thousandth. *)
Definition nbins_to_bins (x : list Q) (nbins : Z) : exn + list Q :=
  if (nbins <? 1)%Z then
    inl (ValueError "`bins` should be a positive integer.")
  else
    match x with
    | [] => inl (ValueError "Cannot cut empty array")
    | x0 :: xs =>
        let mn := numpy.of_Q (pd.amin x0 xs) in
        let mx := numpy.of_Q (pd.amax x0 xs) in
        let c0_001 := numpy.of_Q (1 # 1000) in
        if SFeqb mn mx then
          (* adjust end points before binning *)
          let mn' :=
            numpy.subtract mn
              (if negb (SFeqb mn (numpy.float 0))
               then numpy.multiply c0_001 (SFabs mn) else c0_001) in
          let mx' :=
            numpy.add mx
              (if negb (SFeqb mx (numpy.float 0))
               then numpy.multiply c0_001 (SFabs mx) else c0_001) in
          inr (numpy.to_Q <$> numpy.linspace mn' mx' (nbins + 1))
        else
          (* adjust end points after binning *)
          let bins := numpy.linspace mn mx (nbins + 1) in
          let adj := numpy.multiply (numpy.subtract mx mn) c0_001 in
          inr (numpy.to_Q <$> add_last bins adj)
    end.

End tile.

(** ** The relational library store *)

(** The seven linked tables of a PQP file, each in stored order. *)
Record store : Type := {
  PROTEIN : list Protein.t;
  PEPTIDE : list Peptide.t;
  PEPTIDE_PROTEIN_MAPPING : list PeptideProtein.t;
  PRECURSOR : list Precursor.t;
  PRECURSOR_PEPTIDE_MAPPING : list PrecursorPeptide.t;
  TRANSITION : list Transition.t;
  TRANSITION_PRECURSOR_MAPPING : list TransitionPrecursor.t
}.

(** A SQLite database: the PQP tables (all there, or none of them as in a
    file that [sqlite3.connect] has just created) and the scratch table
    [temp_anchors] while it exists. *)
Record database : Type := {
  pqp : option store;
  temp_anchors : option (list Anchor.t)
}.

Definition empty_database : database := {| pqp := None; temp_anchors := None |}.

Definition pqp_file (s : store) : database :=
  {| pqp := Some s; temp_anchors := None |}.

(** ** The SQL statements of [reduce] *)

(** [DELETE FROM tbl WHERE cond]: the rows on which [cond] does not hold
    stay, in their order. *)
Definition DELETE_WHERE {A : Type} (cond : A → Prop)
    `{!∀ r, Decision (cond r)} (tbl : list A) : list A :=
  filter (λ r, ¬ cond r) tbl.

(** 'SELECT PRECURSOR.ID AS PRECURSOR_ID, LIBRARY_RT FROM PRECURSOR
     WHERE PRECURSOR.DECOY == 0;' *)
Definition anchor_row (r : Precursor.t) : Anchor.t :=
  {| Anchor.PRECURSOR_ID := Precursor.ID r;
     Anchor.LIBRARY_RT := Precursor.LIBRARY_RT r |}.

Definition select_anchor_candidates (s : store) : list Anchor.t :=
  fmap anchor_row (filter (λ r, Precursor.DECOY r = 0%Z) (PRECURSOR s)).

Inductive sql : Type :=
| DELETE_PRECURSOR
    (* DELETE FROM PRECURSOR WHERE ID NOT IN
       (SELECT PRECURSOR_ID FROM temp_anchors) *)
| DELETE_TRANSITION_PRECURSOR_MAPPING
    (* DELETE FROM TRANSITION_PRECURSOR_MAPPING WHERE PRECURSOR_ID NOT IN
       (SELECT PRECURSOR_ID FROM temp_anchors) *)
| DELETE_TRANSITION
    (* DELETE FROM TRANSITION WHERE ID NOT IN
       (SELECT TRANSITION_ID FROM TRANSITION_PRECURSOR_MAPPING) *)
| DELETE_PRECURSOR_PEPTIDE_MAPPING
    (* DELETE FROM PRECURSOR_PEPTIDE_MAPPING WHERE PRECURSOR_ID NOT IN
       (SELECT PRECURSOR_ID FROM temp_anchors) *)
| DELETE_PEPTIDE
    (* DELETE FROM PEPTIDE WHERE ID NOT IN
       (SELECT PEPTIDE_ID FROM PRECURSOR_PEPTIDE_MAPPING) *)
| DELETE_PEPTIDE_PROTEIN_MAPPING
    (* DELETE FROM PEPTIDE_PROTEIN_MAPPING WHERE PEPTIDE_ID NOT IN
       (SELECT PEPTIDE_ID FROM PRECURSOR_PEPTIDE_MAPPING) *)
| DELETE_PROTEIN
    (* DELETE FROM PROTEIN WHERE ID NOT IN
       (SELECT PROTEIN_ID FROM PEPTIDE_PROTEIN_MAPPING) *)
| DROP_TABLE_temp_anchors
    (* DROP TABLE temp_anchors; *)
| VACUUM.
    (* VACUUM; *)

Definition no_such_table (name : string) : exn :=
  OperationalError ("no such table: " +:+ name).

(** The effect of one statement on the rows of the PQP tables, given the
    rows of [temp_anchors]. *)
Definition delete_rows (q : sql) (anchors : list Anchor.t) (s : store) : store :=
  let anchor_ids := fmap Anchor.PRECURSOR_ID anchors in
  match q with
  | DELETE_PRECURSOR =>
      {| PROTEIN := PROTEIN s; PEPTIDE := PEPTIDE s;
         PEPTIDE_PROTEIN_MAPPING := PEPTIDE_PROTEIN_MAPPING s;
         PRECURSOR :=
           DELETE_WHERE (λ r, Precursor.ID r ∉ anchor_ids) (PRECURSOR s);
         PRECURSOR_PEPTIDE_MAPPING := PRECURSOR_PEPTIDE_MAPPING s;
         TRANSITION := TRANSITION s;
         TRANSITION_PRECURSOR_MAPPING := TRANSITION_PRECURSOR_MAPPING s |}
  | DELETE_TRANSITION_PRECURSOR_MAPPING =>
      {| PROTEIN := PROTEIN s; PEPTIDE := PEPTIDE s;
         PEPTIDE_PROTEIN_MAPPING := PEPTIDE_PROTEIN_MAPPING s;
         PRECURSOR := PRECURSOR s;
         PRECURSOR_PEPTIDE_MAPPING := PRECURSOR_PEPTIDE_MAPPING s;
         TRANSITION := TRANSITION s;
         TRANSITION_PRECURSOR_MAPPING :=
           DELETE_WHERE
             (λ r, TransitionPrecursor.PRECURSOR_ID r ∉ anchor_ids)
             (TRANSITION_PRECURSOR_MAPPING s) |}
  | DELETE_TRANSITION =>
      {| PROTEIN := PROTEIN s; PEPTIDE := PEPTIDE s;
         PEPTIDE_PROTEIN_MAPPING := PEPTIDE_PROTEIN_MAPPING s;
         PRECURSOR := PRECURSOR s;
         PRECURSOR_PEPTIDE_MAPPING := PRECURSOR_PEPTIDE_MAPPING s;
         TRANSITION :=
           DELETE_WHERE
             (λ r, Transition.ID r ∉
                   fmap TransitionPrecursor.TRANSITION_ID
                       (TRANSITION_PRECURSOR_MAPPING s))
             (TRANSITION s);
         TRANSITION_PRECURSOR_MAPPING := TRANSITION_PRECURSOR_MAPPING s |}
  | DELETE_PRECURSOR_PEPTIDE_MAPPING =>
      {| PROTEIN := PROTEIN s; PEPTIDE := PEPTIDE s;
         PEPTIDE_PROTEIN_MAPPING := PEPTIDE_PROTEIN_MAPPING s;
         PRECURSOR := PRECURSOR s;
         PRECURSOR_PEPTIDE_MAPPING :=
           DELETE_WHERE
             (λ r, PrecursorPeptide.PRECURSOR_ID r ∉ anchor_ids)
             (PRECURSOR_PEPTIDE_MAPPING s);
         TRANSITION := TRANSITION s;
         TRANSITION_PRECURSOR_MAPPING := TRANSITION_PRECURSOR_MAPPING s |}
  | DELETE_PEPTIDE =>
      {| PROTEIN := PROTEIN s;
         PEPTIDE :=
           DELETE_WHERE
             (λ r, Peptide.ID r ∉
                   fmap PrecursorPeptide.PEPTIDE_ID
                       (PRECURSOR_PEPTIDE_MAPPING s))
             (PEPTIDE s);
         PEPTIDE_PROTEIN_MAPPING := PEPTIDE_PROTEIN_MAPPING s;
         PRECURSOR := PRECURSOR s;
         PRECURSOR_PEPTIDE_MAPPING := PRECURSOR_PEPTIDE_MAPPING s;
         TRANSITION := TRANSITION s;
         TRANSITION_PRECURSOR_MAPPING := TRANSITION_PRECURSOR_MAPPING s |}
  | DELETE_PEPTIDE_PROTEIN_MAPPING =>
      {| PROTEIN := PROTEIN s; PEPTIDE := PEPTIDE s;
         PEPTIDE_PROTEIN_MAPPING :=
           DELETE_WHERE
             (λ r, PeptideProtein.PEPTIDE_ID r ∉
                   fmap PrecursorPeptide.PEPTIDE_ID
                       (PRECURSOR_PEPTIDE_MAPPING s))
             (PEPTIDE_PROTEIN_MAPPING s);
         PRECURSOR := PRECURSOR s;
         PRECURSOR_PEPTIDE_MAPPING := PRECURSOR_PEPTIDE_MAPPING s;
         TRANSITION := TRANSITION s;
         TRANSITION_PRECURSOR_MAPPING := TRANSITION_PRECURSOR_MAPPING s |}
  | DELETE_PROTEIN =>
      {| PROTEIN :=
           DELETE_WHERE
             (λ r, Protein.ID r ∉
                   fmap PeptideProtein.PROTEIN_ID (PEPTIDE_PROTEIN_MAPPING s))
             (PROTEIN s);
         PEPTIDE := PEPTIDE s;
         PEPTIDE_PROTEIN_MAPPING := PEPTIDE_PROTEIN_MAPPING s;
         PRECURSOR := PRECURSOR s;
         PRECURSOR_PEPTIDE_MAPPING := PRECURSOR_PEPTIDE_MAPPING s;
         TRANSITION := TRANSITION s;
         TRANSITION_PRECURSOR_MAPPING := TRANSITION_PRECURSOR_MAPPING s |}
  | DROP_TABLE_temp_anchors | VACUUM => s
  end.

(** The table a [DELETE] statement deletes from. *)
Definition target_table (q : sql) : string :=
  match q with
  | DELETE_PRECURSOR => "PRECURSOR"
  | DELETE_TRANSITION_PRECURSOR_MAPPING => "TRANSITION_PRECURSOR_MAPPING"
  | DELETE_TRANSITION => "TRANSITION"
  | DELETE_PRECURSOR_PEPTIDE_MAPPING => "PRECURSOR_PEPTIDE_MAPPING"
  | DELETE_PEPTIDE => "PEPTIDE"
  | DELETE_PEPTIDE_PROTEIN_MAPPING => "PEPTIDE_PROTEIN_MAPPING"
  | DELETE_PROTEIN => "PROTEIN"
  | DROP_TABLE_temp_anchors | VACUUM => "temp_anchors"
  end.

(** Does the statement read [temp_anchors]? *)
Definition reads_temp_anchors (q : sql) : bool :=
  match q with
  | DELETE_PRECURSOR | DELETE_TRANSITION_PRECURSOR_MAPPING
  | DELETE_PRECURSOR_PEPTIDE_MAPPING => true
  | _ => false
  end.

(** One statement against a database; a missing table is an
    [OperationalError]. *)
Definition run_sql (q : sql) (db : database) : exn + database :=
  match q with
  | VACUUM => inr db
  | DROP_TABLE_temp_anchors =>
      match temp_anchors db with
      | None => inl (no_such_table "temp_anchors")
      | Some _ => inr {| pqp := pqp db; temp_anchors := None |}
      end
  | _ =>
      match pqp db with
      | None => inl (no_such_table (target_table q))
      | Some s =>
          match temp_anchors db with
          | None =>
              if reads_temp_anchors q then inl (no_such_table "temp_anchors")
              else inr {| pqp := Some (delete_rows q [] s);
                          temp_anchors := None |}
          | Some a =>
              inr {| pqp := Some (delete_rows q a s);
                     temp_anchors := Some a |}
          end
      end
  end.

(** ** The world: files, the open connection, the effects so far *)

Inductive event : Type :=
| EvCopyfile (src dst : string)
| EvConnect (path : string)
| EvReadSql
| EvToSql
| EvExecute (q : sql)
| EvCommit
| EvClose
| EvGenerate (untransformed : bool)
| EvEcho (msg : string).

(** An open [sqlite3] connection: the file it is on and the database as
    the connection sees it, uncommitted changes included. *)
Record connection : Type := {
  con_path : string;
  con_db : database
}.

(** [files] holds what is durably on disk; an [event] is recorded for each
    effect that took place. *)
Record world : Type := {
  files : gmap string database;
  con : option connection;
  trace : list event
}.

Definition M (A : Type) : Type := world → (exn + A) * world.

Definition ret {A : Type} (a : A) : M A := λ w, (inr a, w).

Definition raise {A : Type} (e : exn) : M A := λ w, (inl e, w).

(** An exception ends the computation; the world stays as it was when the
    exception was raised. *)
Definition bind {A B : Type} (k : A → M B) (m : M A) : M B :=
  λ w, match m w with
       | (inl e, w') => (inl e, w')
       | (inr a, w') => k a w'
       end.

#[global] Instance M_ret : MRet M := @ret.
#[global] Instance M_bind : MBind M := @bind.

Definition lift {A : Type} (r : exn + A) : M A :=
  match r with inl e => raise e | inr a => ret a end.

(** [shutil.copyfile(src, dst)].  The two are the same file when the
    paths are equal, paths being resolved names. *)
Definition copyfile (src dst : string) : M unit := λ w,
  match files w !! src with
  | None => (inl FileNotFoundError, w)
  | Some f =>
      if decide (src = dst) then (inl SameFileError, w)
      else (inr tt, {| files := <[dst := f]> (files w);
                       con := con w;
                       trace := trace w ++ [EvCopyfile src dst] |})
  end.

(** [con = sqlite3.connect(path)]; a missing file is created empty. *)
Definition connect (path : string) : M unit := λ w,
  match files w !! path with
  | Some db =>
      (inr tt, {| files := files w;
                  con := Some {| con_path := path; con_db := db |};
                  trace := trace w ++ [EvConnect path] |})
  | None =>
      (inr tt, {| files := <[path := empty_database]> (files w);
                  con := Some {| con_path := path; con_db := empty_database |};
                  trace := trace w ++ [EvConnect path] |})
  end.

Definition closed_database : exn :=
  ProgrammingError "Cannot operate on a closed database.".

(** [pd.read_sql('SELECT PRECURSOR.ID AS PRECURSOR_ID, LIBRARY_RT FROM
    PRECURSOR WHERE PRECURSOR.DECOY == 0;', con)] *)
Definition read_sql_anchor_candidates : M (list Anchor.t) := λ w,
  match con w with
  | None => (inl closed_database, w)
  | Some c =>
      match pqp (con_db c) with
      | None =>
          (inl (DatabaseError
                  ("Execution failed on sql 'SELECT PRECURSOR.ID AS "
                   +:+ "PRECURSOR_ID, LIBRARY_RT FROM PRECURSOR WHERE "
                   +:+ "PRECURSOR.DECOY == 0;': no such table: PRECURSOR")),
           w)
      | Some s =>
          (inr (select_anchor_candidates s),
           {| files := files w; con := con w;
              trace := trace w ++ [EvReadSql] |})
      end
  end.

(** [frame.to_sql('temp_anchors', con, index=False)]: with the default
    [if_exists='fail'] an existing table is an error; otherwise the table
    is created and filled, and pandas commits. *)
Definition to_sql_temp_anchors (frame : list Anchor.t) : M unit := λ w,
  match con w with
  | None => (inl closed_database, w)
  | Some c =>
      match temp_anchors (con_db c) with
      | Some _ => (inl (ValueError "Table 'temp_anchors' already exists."), w)
      | None =>
          let db := {| pqp := pqp (con_db c); temp_anchors := Some frame |} in
          (inr tt, {| files := <[con_path c := db]> (files w);
                      con := Some {| con_path := con_path c; con_db := db |};
                      trace := trace w ++ [EvToSql] |})
      end
  end.

(** [con.execute(q)]: the change stays in the connection until a commit. *)
Definition execute (q : sql) : M unit := λ w,
  match con w with
  | None => (inl closed_database, w)
  | Some c =>
      match run_sql q (con_db c) with
      | inl e => (inl e, w)
      | inr db =>
          (inr tt, {| files := files w;
                      con := Some {| con_path := con_path c; con_db := db |};
                      trace := trace w ++ [EvExecute q] |})
      end
  end.

(** [con.commit()]: what the connection sees becomes durable. *)
Definition commit : M unit := λ w,
  match con w with
  | None => (inl closed_database, w)
  | Some c =>
      (inr tt, {| files := <[con_path c := con_db c]> (files w);
                  con := con w;
                  trace := trace w ++ [EvCommit] |})
  end.

(** [con.close()] *)
Definition close : M unit := λ w,
  (inr tt, {| files := files w; con := None; trace := trace w ++ [EvClose] |}).

(** [click.echo(msg)] *)
Definition echo (msg : string) : M unit := λ w,
  (inr tt, {| files := files w; con := con w;
              trace := trace w ++ [EvEcho msg] |}).

(** ** [reduce] *)

(** [anchor_candidates['BIN'] = ...]: the frame with its new column. *)
Definition with_BIN (frame : list Anchor.t) (BIN : list (option Z))
  : list (Anchor.t * option Z) := zip frame BIN.

(** [anchors = anchor_candidates.groupby('BIN').head(peptides)] and the
    projection [anchors[['PRECURSOR_ID','LIBRARY_RT']]]. *)
Definition anchors_of (peptides : Z) (frame : list (Anchor.t * option Z))
  : list Anchor.t := fmap fst (pd.groupby_head snd peptides frame).

(** [reduce], with [pd.cut(.., bins=bins, right=False, labels=False)] as
    [cut]. *)
Definition reduce_with (cut : list Q → Z → exn + list (option Z))
    (infile : string) (outfile : option string)
    (bins peptides : Z) : M unit :=
  (* Define outfile *)
  outfile ← match outfile with
             | None => ret infile
             | Some outfile => copyfile infile outfile ;; ret outfile
             end ;
  connect outfile ;;
  anchor_candidates ← read_sql_anchor_candidates ;
  BIN ← lift (cut (fmap Anchor.LIBRARY_RT anchor_candidates) bins) ;
  let anchor_candidates := with_BIN anchor_candidates BIN in
  let anchors := anchors_of peptides anchor_candidates in
  to_sql_temp_anchors anchors ;;
  (* Delete precursors *)
  execute DELETE_PRECURSOR ;;
  (* Delete transitions *)
  execute DELETE_TRANSITION_PRECURSOR_MAPPING ;;
  execute DELETE_TRANSITION ;;
  (* Delete peptides and proteins *)
  execute DELETE_PRECURSOR_PEPTIDE_MAPPING ;;
  execute DELETE_PEPTIDE ;;
  execute DELETE_PEPTIDE_PROTEIN_MAPPING ;;
  execute DELETE_PROTEIN ;;
  (* Delete tables *)
  execute DROP_TABLE_temp_anchors ;;
  commit ;;
  (* Clean file *)
  execute VACUUM ;;
  (* Close connection to file *)
  close ;;
  echo ("Info: Library successfully processed and stored in " +:+ outfile +:+ ".").

(** [reduce] with the bin edges in exact arithmetic. *)
Definition reduce (infile : string) (outfile : option string)
    (bins peptides : Z) : M unit :=
  reduce_with pd.cut infile outfile bins peptides.

(** [reduce] as it runs, with the bin edges in float64. *)
Definition reduce_float64 (repr : list Q → string)
    (infile : string) (outfile : option string)
    (bins peptides : Z) : M unit :=
  reduce_with (pd.cut_with tile.nbins_to_bins repr)
    infile outfile bins peptides.

(** ** [library] *)

(** The value of [--pi0_lambda] as [generate] receives it: the three floats
    click parsed ([type=(float, float, float)]), or what the option's
    callback returned for them. *)
Inductive pi0_lambda_value (T : Type) : Type :=
| untransformed (value : Q * Q * Q)
| transformed (v : T).

Arguments untransformed {T} value.
Arguments transformed {T} v.

(** How [from pyprophet.data_handling import transform_pi0_lambda] ends. *)
Inductive import_outcome (T : Type) : Type :=
| imported (f : Q * Q * Q → exn + T)
| ModuleNotFoundError
| import_raises (e : exn).

Arguments imported {T} f.
Arguments ModuleNotFoundError {T}.
Arguments import_raises {T} e.

Section Library.

(** [T]: what pyprophet's [transform_pi0_lambda] returns.  [options]: the
    other options of the command, which [library] hands to [generate] as
    they are.  [generate] is the function of easypqp/library.py. *)
Context {T options : Type}.
Variable generate : options → pi0_lambda_value T → M unit.

(** [try: from pyprophet.data_handling import transform_pi0_lambda]
    [except ModuleNotFoundError: transform_pi0_lambda = None] *)
Definition transform_pi0_lambda (outcome : import_outcome T)
  : exn + option (Q * Q * Q → exn + T) :=
  match outcome with
  | imported f => inr (Some f)
  | ModuleNotFoundError => inr None
  | import_raises e => inl e
  end.

(** click: the parsed value of an option goes through the option's
    callback when it has one ([callback=transform_pi0_lambda]). *)
Definition process_value (callback : option (Q * Q * Q → exn + T))
    (value : Q * Q * Q) : exn + pi0_lambda_value T :=
  match callback with
  | None => inr (untransformed value)
  | Some f =>
      match f value with
      | inl e => inl e
      | inr v => inr (transformed v)
      end
  end.

Definition library (callback : option (Q * Q * Q → exn + T))
    (opts : options) (pi0_lambda : Q * Q * Q) : M unit :=
  pi0_lambda ← lift (process_value callback pi0_lambda) ;
  generate opts pi0_lambda ;;
  echo "Info: Library successfully generated.".

(** The module is loaded, then the command runs. *)
Definition run_library (outcome : import_outcome T)
    (opts : options) (pi0_lambda : Q * Q * Q) : M unit :=
  callback ← lift (transform_pi0_lambda outcome) ;
  library callback opts pi0_lambda.

End Library.

(** ** What a run of [reduce] computes *)

(** The statements of the deletion cascade, in the order [reduce] runs
    them. *)
Definition cascade_statements : list sql :=
  [ DELETE_PRECURSOR; DELETE_TRANSITION_PRECURSOR_MAPPING; DELETE_TRANSITION;
    DELETE_PRECURSOR_PEPTIDE_MAPPING; DELETE_PEPTIDE;
    DELETE_PEPTIDE_PROTEIN_MAPPING; DELETE_PROTEIN ].

(** The rows left by the cascade for given rows of [temp_anchors]. *)
Definition cascade (anchors : list Anchor.t) (s : store) : store :=
  foldl (λ s q, delete_rows q anchors s) s cascade_statements.

(** The path [reduce] connects to. *)
Definition target (infile : string) (outfile : option string) : string :=
  default infile outfile.

(** The effects of a run of [reduce] that reaches its end. *)
Definition reduce_events (infile : string) (outfile : option string) : list event :=
  match outfile with
  | None => []
  | Some o => [EvCopyfile infile o]
  end ++
  [EvConnect (target infile outfile); EvReadSql; EvToSql] ++
  fmap EvExecute cascade_statements ++
  [EvExecute DROP_TABLE_temp_anchors; EvCommit; EvExecute VACUUM; EvClose;
   EvEcho ("Info: Library successfully processed and stored in "
           +:+ target infile outfile +:+ ".")].

(** The non-decoy precursors of a store, their bins and the anchors picked
    among them, as [reduce] computes them. *)
Definition candidates (s : store) : list Anchor.t := select_anchor_candidates s.

Definition candidate_rts (s : store) : list Q :=
  fmap Anchor.LIBRARY_RT (candidates s).

Definition anchors (BIN : list (option Z)) (peptides : Z) (s : store)
  : list Anchor.t := anchors_of peptides (with_BIN (candidates s) BIN).

(** The edges [pd.cut] computes for the non-decoy precursors of a store and
    the bin it assigns to a retention time. *)
Definition bin_edges (bins : Z) (s : store) : list Q :=
  match pd.nbins_to_bins (candidate_rts s) bins with
  | inr edges => edges
  | inl _ => []
  end.

Definition BIN_of (bins : Z) (s : store) (rt : Q) : option Z :=
  pd.bin_label (bin_edges bins s) rt.



(** ** The schema invariant of the store *)

(** Every mapping row references an existing row in both linked tables,
    and every protein, peptide, precursor and transition is referenced by
    a mapping row. *)
Definition referential_integrity (s : store) : Prop :=
  let tpm := TRANSITION_PRECURSOR_MAPPING s in
  let ppm := PRECURSOR_PEPTIDE_MAPPING s in
  let pp := PEPTIDE_PROTEIN_MAPPING s in
  (* mapping rows: both linked rows exist *)
  Forall (λ r, TransitionPrecursor.TRANSITION_ID r ∈ Transition.ID <$> TRANSITION s
             ∧ TransitionPrecursor.PRECURSOR_ID r ∈ Precursor.ID <$> PRECURSOR s)
         tpm
  ∧ Forall (λ r, PrecursorPeptide.PRECURSOR_ID r ∈ Precursor.ID <$> PRECURSOR s
               ∧ PrecursorPeptide.PEPTIDE_ID r ∈ Peptide.ID <$> PEPTIDE s)
           ppm
  ∧ Forall (λ r, PeptideProtein.PEPTIDE_ID r ∈ Peptide.ID <$> PEPTIDE s
               ∧ PeptideProtein.PROTEIN_ID r ∈ Protein.ID <$> PROTEIN s)
           pp
  (* parent rows: no orphan *)
  ∧ Forall (λ r, Protein.ID r ∈ PeptideProtein.PROTEIN_ID <$> pp)
           (PROTEIN s)
  ∧ Forall (λ r, Peptide.ID r ∈ PrecursorPeptide.PEPTIDE_ID <$> ppm
               ∨ Peptide.ID r ∈ PeptideProtein.PEPTIDE_ID <$> pp)
           (PEPTIDE s)
  ∧ Forall (λ r, Precursor.ID r ∈ TransitionPrecursor.PRECURSOR_ID <$> tpm
               ∨ Precursor.ID r ∈ PrecursorPeptide.PRECURSOR_ID <$> ppm)
           (PRECURSOR s)
  ∧ Forall (λ r, Transition.ID r ∈ TransitionPrecursor.TRANSITION_ID <$> tpm)
           (TRANSITION s).

#[global] Instance referential_integrity_dec s :
  Decision (referential_integrity s).
Proof. unfold referential_integrity. cbn zeta. apply _. Defined.

(** [PRECURSOR.ID] is the primary key of its table. *)
Definition precursor_key (s : store) : Prop :=
  NoDup (fmap Precursor.ID (PRECURSOR s)).

#[global] Instance precursor_key_dec s : Decision (precursor_key s).
Proof. unfold precursor_key. apply _. Defined.

(** ** The bins in the words of the specification *)

(** [N] equal-width bins over the range [mn, mx] of the retention times:
    bin [b] starts at [mn + b * (mx - mn) / N]; a bin is closed on the left
    and open on the right, the last bin is closed on both ends. *)
Definition spec_bin_low (mn mx : Q) (N b : Z) : Q :=
  (mn + inject_Z b * ((mx - mn) / inject_Z N))%Q.

Definition in_spec_bin (mn mx : Q) (N b : Z) (v : Q) : Prop :=
  (spec_bin_low mn mx N b <= v)%Q ∧
  if decide (b = N - 1)%Z then (v <= mx)%Q
  else (v < spec_bin_low mn mx N (b + 1))%Q.

(** ** Reasoning about runs *)

(** [triple P m Q E]: from a world in [P], [m] ends in a world in [Q a] when
    it returns [a] and in a world in [E] when it raises. *)
Definition triple {A : Type} (P : world → Prop) (m : M A)
    (Q : A → world → Prop) (E : world → Prop) : Prop :=
  ∀ w, P w →
    match m w with
    | (inr a, w') => Q a w'
    | (inl _, w') => E w'
    end.

(** Every file other than [path] is as it is in [w0]. *)
Definition others_as_in (w0 : world) (path : string) (w : world) : Prop :=
  ∀ p, p ≠ path → files w !! p = files w0 !! p.

(** The open connection, if any, is on [path]. *)
Definition con_on (path : string) (w : world) : Prop :=
  ∀ c, con w = Some c → con_path c = path.

(** What holds from [connect path] on: the connection is on [path], and
    no other file has been written. *)
Definition connected (w0 : world) (path : string) (w : world) : Prop :=
  others_as_in w0 path w ∧ con_on path w.

(** ** Examples *)

Definition mk_precursor (id : Z) (rt : Q) (decoy : Z) : Precursor.t :=
  {| Precursor.ID := id; Precursor.LIBRARY_RT := rt; Precursor.DECOY := decoy |}.

Definition world0 (fs : gmap string database) : world :=
  {| files := fs; con := None; trace := [] |}.

Definition mk_precursor_peptide (precursor peptide : Z) : PrecursorPeptide.t :=
  {| PrecursorPeptide.PRECURSOR_ID := precursor;
     PrecursorPeptide.PEPTIDE_ID := peptide |}.

Definition mk_transition_precursor (transition precursor : Z)
  : TransitionPrecursor.t :=
  {| TransitionPrecursor.TRANSITION_ID := transition;
     TransitionPrecursor.PRECURSOR_ID := precursor |}.

Definition mk_peptide_protein (peptide protein : Z) : PeptideProtein.t :=
  {| PeptideProtein.PEPTIDE_ID := peptide;
     PeptideProtein.PROTEIN_ID := protein |}.

(** Two proteins, three peptides, five precursors at retention times 4, 3,
    0, 10 and 6 and a decoy at 7, one transition each. *)
Definition ex_store1 : store :=
  {| PROTEIN := [ {| Protein.ID := 1 |}; {| Protein.ID := 2 |} ];
     PEPTIDE := [ {| Peptide.ID := 10 |}; {| Peptide.ID := 11 |};
                  {| Peptide.ID := 12 |} ];
     PEPTIDE_PROTEIN_MAPPING :=
       [ mk_peptide_protein 10 1; mk_peptide_protein 11 1;
         mk_peptide_protein 12 2 ];
     PRECURSOR :=
       [ mk_precursor 100 4 0; mk_precursor 101 3 0; mk_precursor 102 0 0;
         mk_precursor 103 10 0; mk_precursor 104 6 0; mk_precursor 105 7 1 ];
     PRECURSOR_PEPTIDE_MAPPING :=
       [ mk_precursor_peptide 100 10; mk_precursor_peptide 101 10;
         mk_precursor_peptide 102 11; mk_precursor_peptide 103 11;
         mk_precursor_peptide 104 12; mk_precursor_peptide 105 12 ];
     TRANSITION :=
       [ {| Transition.ID := 1000 |}; {| Transition.ID := 1001 |};
         {| Transition.ID := 1002 |}; {| Transition.ID := 1003 |};
         {| Transition.ID := 1004 |}; {| Transition.ID := 1005 |} ];
     TRANSITION_PRECURSOR_MAPPING :=
       [ mk_transition_precursor 1000 100; mk_transition_precursor 1001 101;
         mk_transition_precursor 1002 102; mk_transition_precursor 1003 103;
         mk_transition_precursor 1004 104; mk_transition_precursor 1005 105 ] |}.

Definition ex_world1 : world := world0 {[ "in.pqp" := pqp_file ex_store1 ]}.

(** The example world after [reduce --in in.pqp --out out.pqp --bins 2
    --peptides 2]. *)
Definition ex_world1_reduced : world :=
  (reduce "in.pqp" (Some "out.pqp") 2 2 ex_world1).2.




(** A store whose only precursor is a decoy. *)
Definition ex_store_decoy : store :=
  {| PROTEIN := []; PEPTIDE := []; PEPTIDE_PROTEIN_MAPPING := [];
     PRECURSOR := [ mk_precursor 1 5 1 ];
     PRECURSOR_PEPTIDE_MAPPING := [];
     TRANSITION := []; TRANSITION_PRECURSOR_MAPPING := [] |}.

Definition ex_world_decoy : world :=
  world0 {[ "in.pqp" := pqp_file ex_store_decoy ]}.




(** A [generate] that only records that it was called, and whether it was
    given the untransformed [--pi0_lambda] triple. *)
Definition ex_generate (_ : unit) (pi0_lambda : pi0_lambda_value (list Q)) : M unit :=
  λ w, (inr (), {| files := files w; con := con w;
                   trace := trace w ++ [EvGenerate
                     match pi0_lambda with
                     | untransformed _ => true
                     | transformed _ => false
                     end] |}).

(** A store without rows. *)
Definition empty_store : store :=
  {| PROTEIN := []; PEPTIDE := []; PEPTIDE_PROTEIN_MAPPING := [];
     PRECURSOR := []; PRECURSOR_PEPTIDE_MAPPING := [];
     TRANSITION := []; TRANSITION_PRECURSOR_MAPPING := [] |}.

(** A [transform_pi0_lambda] that takes a fixed value as it is and refuses
    the rest, as an example of a callback. *)
Definition ex_transform_pi0_lambda (value : Q * Q * Q) : exn + list Q :=
  let '(v0, v1, v2) := value in
  if Qeq_bool v1 0 && Qeq_bool v2 0 then inr [v0]
  else inl (ClickException
              "Wrong input values for pi0_lambda, must be within [0,1).").

(** ** Strings and lists of Python *)

Module str.

(** [s.split(sep)] for a separator of one character: the pieces between
    the occurrences of [sep], empty pieces included; never the empty list.
    (Strings are sequences of bytes here; the byte of an ASCII separator
    occurs in UTF-8 text only as that character.) *)
Fixpoint split (s : string) (sep : ascii) : list string :=
  match s with
  | EmptyString => [EmptyString]
  | String c s' =>
      if Ascii.eqb c sep then EmptyString :: split s' sep
      else
        match split s' sep with
        | [] => [String c EmptyString]
        | piece :: pieces => String c piece :: pieces
        end
  end.

(** [sep.join(pieces)] *)
Fixpoint join (sep : string) (pieces : list string) : string :=
  match pieces with
  | [] => EmptyString
  | piece :: pieces' =>
      match pieces' with
      | [] => piece
      | _ :: _ => piece +:+ sep +:+ join sep pieces'
      end
  end.

(** [s.count(c)] for one character. *)
Fixpoint count (s : string) (c : ascii) : nat :=
  match s with
  | EmptyString => 0
  | String c' s' => (if Ascii.eqb c' c then 1 else 0) + count s' c
  end.

End str.

(** ** [transform_comma_string_to_list] *)

(** The callback of [--ids] and [--sites]; [ctx] and [param] are not
    used. *)
Definition transform_comma_string_to_list {Ctx Param : Type}
    (ctx : Ctx) (param : Param) (value : option string) : option (list string) :=
  match value with
  | Some value =>
      let str_list := str.split value ","%char in
      Some str_list
  | None => None
  end.

(** ** [convert] *)

(** [convert] can raise what [reduce] cannot: an [IndexError]. *)
Inductive convert_exn : Type :=
| IndexError (msg : string)
| Raised (e : exn).

(** [l[i]] *)
Definition getitem {A : Type} (l : list A) (i : nat) : convert_exn + A :=
  match l !! i with
  | Some x => inr x
  | None => inl (IndexError "list index out of range")
  end.

(** What [to_pickle] leaves in a file. *)
Inductive pickle (Psms Peaks : Type) : Type :=
| psms_pickle (psms : Psms)
| peaks_pickle (peaks : Peaks).

Arguments psms_pickle {Psms Peaks} psms.
Arguments peaks_pickle {Psms Peaks} peaks.

Record convert_world (Psms Peaks : Type) : Type := {
  pickles : gmap string (pickle Psms Peaks);
  echoed : list string
}.

Arguments pickles {Psms Peaks} _.
Arguments echoed {Psms Peaks} _.

Section Convert.

(** [F]: the floats of Python.  [Lit]: the values of the options read as
    Python literals.  [Psms], [Peaks]: the two frames [conversion] returns.
    [resource_filename] is the function of pkg_resources, [float] the
    built-in (it raises [ValueError]), [basename_spectralfile] and
    [conversion] the functions of easypqp/convert.py. *)
Context {F Lit Psms Peaks : Type}.

Definition CM (A : Type) : Type :=
  convert_world Psms Peaks → (convert_exn + A) * convert_world Psms Peaks.

Definition cm_ret {A : Type} (a : A) : CM A := λ w, (inr a, w).

Definition cm_bind {A B : Type} (k : A → CM B) (m : CM A) : CM B :=
  λ w, match m w with
       | (inl e, w') => (inl e, w')
       | (inr a, w') => k a w'
       end.

#[global] Instance CM_ret : MRet CM := @cm_ret.
#[global] Instance CM_bind : MBind CM := @cm_bind.

Definition cm_lift {A : Type} (r : convert_exn + A) : CM A :=
  λ w, (r, w).

Definition cm_lift_exn {A : Type} (r : exn + A) : CM A :=
  λ w, (match r with inl e => inl (Raised e) | inr a => inr a end, w).

(** [click.echo(msg)] *)
Definition click_echo (msg : string) : CM unit := λ w,
  (inr tt, {| pickles := pickles w; echoed := echoed w ++ [msg] |}).

(** [frame.to_pickle(path)], the path being writable. *)
Definition to_pickle (frame : pickle Psms Peaks) (path : string) : CM unit := λ w,
  (inr tt, {| pickles := <[path := frame]> (pickles w); echoed := echoed w |}).

Variable resource_filename : string → string → string.
Variable basename_spectralfile : string → string.
Variable float : string → exn + F.
Variable conversion :
  string → string → string → list F → F → F → bool → bool → Lit → Lit →
  bool → bool → F → CM (Psms * Peaks).

Definition convert (pepxmlfile spectralfile : string)
    (unimodfile psmsfile peaksfile : option string)
    (exclude_range_str : string) (max_delta_unimod max_delta_ppm : F)
    (enable_unannotated enable_massdiff : bool)
    (fragment_types fragment_charges : Lit)
    (enable_specific_losses enable_unspecific_losses : bool)
    (subsample_fraction max_psm_pep : F) : CM unit :=
  let unimodfile :=
    match unimodfile with
    | None => resource_filename "easypqp" "data/unimod.xml"
    | Some unimodfile => unimodfile
    end in
  let run_id := basename_spectralfile spectralfile in
  let psmsfile :=
    match psmsfile with
    | None => run_id +:+ ".psmpkl"
    | Some psmsfile => psmsfile
    end in
  let peaksfile :=
    match peaksfile with
    | None => run_id +:+ ".peakpkl"
    | Some peaksfile => peaksfile
    end in
  let temp := str.split exclude_range_str ","%char in
  temp0 ← cm_lift (getitem temp 0) ;
  lo ← cm_lift_exn (float temp0) ;
  temp1 ← cm_lift (getitem temp 1) ;
  hi ← cm_lift_exn (float temp1) ;
  let exclude_range := [lo; hi] in
  click_echo ("Info: Converting " +:+ pepxmlfile +:+ ".") ;;
  '(psms, peaks) ← conversion pepxmlfile spectralfile unimodfile exclude_range
                     max_delta_unimod max_delta_ppm enable_unannotated
                     enable_massdiff fragment_types fragment_charges
                     enable_specific_losses enable_unspecific_losses
                     max_psm_pep ;
  to_pickle (psms_pickle psms) psmsfile ;;
  click_echo ("Info: PSMs successfully converted and stored in "
              +:+ psmsfile +:+ ".") ;;
  to_pickle (peaks_pickle peaks) peaksfile ;;
  click_echo ("Info: Peaks successfully converted and stored in "
              +:+ peaksfile +:+ ".").

End Convert.

(** Examples for [convert]: a [float] that knows two numerals, a
    [basename_spectralfile] that cuts nothing off and a [conversion] that
    returns the names of its inputs. *)
Definition ex_float (s : string) : exn + Q :=
  if decide (s = "-1.5") then inr (-3 # 2)%Q
  else if decide (s = "3.5") then inr (7 # 2)%Q
  else inl (ValueError ("could not convert string to float: '" +:+ s +:+ "'")).

Definition ex_conversion (pepxmlfile spectralfile unimodfile : string)
    (exclude_range : list Q) (max_delta_unimod max_delta_ppm : Q)
    (enable_unannotated enable_massdiff : bool)
    (fragment_types fragment_charges : list string)
    (enable_specific_losses enable_unspecific_losses : bool)
    (max_psm_pep : Q) : CM (Psms := string) (Peaks := string) (string * string) :=
  cm_ret (pepxmlfile, spectralfile).

Definition ex_convert (psmsfile peaksfile : option string)
    (exclude_range_str : string) : CM (Psms := string) (Peaks := string) unit :=
  convert (λ _ name, name) id ex_float ex_conversion
    "interact.pep.xml" "run1" None psmsfile peaksfile exclude_range_str
    (1 # 50)%Q 15%Q false false ["b"; "y"] ["1"; "2"] false false 1%Q (1 # 2)%Q.

Definition ex_convert_world : convert_world string string :=
  {| pickles := ∅; echoed := [] |}.

(** ** The rows [reduce] bins *)

(** The non-decoy precursors, each with its entry of the [BIN] column. *)
Definition binned (s : store) (BIN : list (option Z))
  : list (Precursor.t * option Z) :=
  zip (filter (λ r, Precursor.DECOY r = 0%Z) (PRECURSOR s)) BIN.

(** A stand-in for the text numpy prints for an array; no statement
    depends on it. *)
Definition ex_repr (bins : list Q) : string := "array([...])".


Definition ex_BIN1 : list (option Z) :=
  Eval vm_compute in
    match pd.cut_with tile.nbins_to_bins ex_repr (candidate_rts ex_store1) 2 with
    | inr BIN => BIN
    | inl _ => []
    end.




(** A PQP file that still has a [temp_anchors] table. *)
Definition ex_world_stale : world :=
  world0 {[ "in.pqp" := {| pqp := Some ex_store1; temp_anchors := Some [] |} ]}.

(** * Properties *)

(** ** The pandas operations on small inputs *)

Example cut_5_values_2_bins :
  pd.cut [4; 3; 0; 10; 6]%Q 2 = inr [Some 0; Some 0; Some 0; Some 1; Some 1]%Z.
Proof. reflexivity. Qed.

Example cut_edges_2_bins :
  ∃ edges, pd.nbins_to_bins [4; 3; 0; 10; 6]%Q 2 = inr edges
           ∧ Forall2 Qeq edges [0; 5; 1001 # 100]%Q.
Proof.
  eexists. split; [reflexivity|]. repeat constructor; vm_compute; reflexivity.
Qed.

Example cut_edges_single_value :
  ∃ edges, pd.nbins_to_bins [5]%Q 2 = inr edges
           ∧ Forall2 Qeq edges [4995 # 1000; 5; 5005 # 1000]%Q.
Proof.
  eexists. split; [reflexivity|]. repeat constructor; vm_compute; reflexivity.
Qed.

Example cut_single_value :
  pd.cut [5]%Q 3 = inr [Some 1%Z].
Proof. reflexivity. Qed.

(** In float64 the edges are rounded.  Over the range from 0 to 14 split in
    50 bins the 25th edge is the double above 7, so the value 7 falls into
    bin 24; in exact arithmetic the edge is 7 and the bin is 25. *)
Example cut_float64_rounded_edge :
  pd.cut_with tile.nbins_to_bins ex_repr [0; 7; 57 # 8; 14]%Q 50
  = inr [Some 0; Some 24; Some 25; Some 49]%Z
  ∧ pd.cut [0; 7; 57 # 8; 14]%Q 50 = inr [Some 0; Some 25; Some 25; Some 49]%Z.
Proof. split; vm_compute; reflexivity. Qed.

(** Two values next to each other among the doubles: with two bins the
    middle edge is the lower value once more and the edges are refused;
    with one bin the upper edge is the upper value, which gets no bin. *)
Example cut_float64_narrow_range :
  (∃ msg,
     pd.cut_with tile.nbins_to_bins ex_repr
       [1; 4503599627370497 # 4503599627370496]%Q 2 = inl (ValueError msg))
  ∧ pd.cut_with tile.nbins_to_bins ex_repr
      [1; 4503599627370497 # 4503599627370496]%Q 1 = inr [Some 0%Z; None].
Proof. split; [eexists|]; vm_compute; reflexivity. Qed.

(** On the values of [ex_store1] the float64 edges give the labels the
    exact edges give. *)
Example cut_float64_5_values_2_bins :
  pd.cut_with tile.nbins_to_bins ex_repr [4; 3; 0; 10; 6]%Q 2
  = inr [Some 0; Some 0; Some 0; Some 1; Some 1]%Z.
Proof. vm_compute. reflexivity. Qed.

Example cut_zero_bins :
  pd.cut [5]%Q 0 = inl (ValueError "`bins` should be a positive integer.").
Proof. reflexivity. Qed.

Example cut_empty :
  pd.cut [] 10 = inl (ValueError "Cannot cut empty array").
Proof. reflexivity. Qed.

Example head_2_per_group :
  pd.groupby_head snd 2
    [(4, Some 0); (3, Some 0); (0, Some 0); (10, Some 1); (6, Some 1)]%Z
  = [(4, Some 0); (3, Some 0); (10, Some 1); (6, Some 1)]%Z.
Proof. reflexivity. Qed.

Example head_negative :
  pd.groupby_head snd (-1)
    [(4, Some 0); (3, Some 0); (0, Some 0); (10, Some 1); (6, Some 1)]%Z
  = [(4, Some 0); (3, Some 0); (10, Some 1)]%Z.
Proof. reflexivity. Qed.

(** ** The deletion cascade, table by table *)

Lemma DELETE_WHERE_NOT_IN {A : Type} (f : A → Z) (sub : list Z) (tbl : list A) :
  DELETE_WHERE (λ r, f r ∉ sub) tbl = filter (λ r, f r ∈ sub) tbl.
Proof.
  unfold DELETE_WHERE. apply list_filter_iff. intros r. split.
  - apply dec_stable.
  - intros H Hn. by apply Hn.
Qed.

Lemma cascade_eq a s :
  let ids := fmap Anchor.PRECURSOR_ID a in
  let tpm := filter (λ r, TransitionPrecursor.PRECURSOR_ID r ∈ ids)
                    (TRANSITION_PRECURSOR_MAPPING s) in
  let ppm := filter (λ r, PrecursorPeptide.PRECURSOR_ID r ∈ ids)
                    (PRECURSOR_PEPTIDE_MAPPING s) in
  let pepprot :=
    filter (λ r, PeptideProtein.PEPTIDE_ID r ∈ PrecursorPeptide.PEPTIDE_ID <$> ppm)
                        (PEPTIDE_PROTEIN_MAPPING s) in
  cascade a s =
    {| PROTEIN :=
         filter (λ r, Protein.ID r ∈ PeptideProtein.PROTEIN_ID <$> pepprot)
                (PROTEIN s);
       PEPTIDE :=
         filter (λ r, Peptide.ID r ∈ PrecursorPeptide.PEPTIDE_ID <$> ppm)
                (PEPTIDE s);
       PEPTIDE_PROTEIN_MAPPING := pepprot;
       PRECURSOR := filter (λ r, Precursor.ID r ∈ ids) (PRECURSOR s);
       PRECURSOR_PEPTIDE_MAPPING := ppm;
       TRANSITION :=
         filter (λ r, Transition.ID r ∈ TransitionPrecursor.TRANSITION_ID <$> tpm)
                (TRANSITION s);
       TRANSITION_PRECURSOR_MAPPING := tpm |}.
Proof.
  unfold cascade. cbn -[DELETE_WHERE]. by rewrite !DELETE_WHERE_NOT_IN.
Qed.

Lemma reduce_with_run cut infile outfile bins peptides w s BIN :
  files w !! infile = Some (pqp_file s) →
  (∀ o, outfile = Some o → o ≠ infile) →
  cut (candidate_rts s) bins = inr BIN →
  reduce_with cut infile outfile bins peptides w =
    (inr (),
     {| files := <[target infile outfile :=
                     pqp_file (cascade (anchors BIN peptides s) s)]> (files w);
        con := None;
        trace := trace w ++ reduce_events infile outfile |}).
Proof.
  intros Hf Ho Hcut. unfold candidate_rts, candidates in Hcut.
  unfold reduce_with, mbind, M_bind, bind, echo.
  destruct outfile as [o|]; cbn.
  - unfold copyfile. rewrite Hf. destruct (decide (infile = o)) as [->|Hne].
    { exfalso. by eapply Ho. }
    cbn. unfold connect. cbn. rewrite lookup_insert_eq. cbn.
    rewrite Hcut. cbn. rewrite !insert_insert_eq.
    repeat rewrite <- app_assoc. reflexivity.
  - unfold connect. rewrite Hf. cbn. rewrite Hcut. cbn.
    rewrite !insert_insert_eq. repeat rewrite <- app_assoc. reflexivity.
Qed.

Lemma reduce_with_ok_inv cut infile outfile bins peptides w w' :
  reduce_with cut infile outfile bins peptides w = (inr (), w') →
  ∃ s BIN,
    files w !! infile = Some (pqp_file s) ∧
    (∀ o, outfile = Some o → o ≠ infile) ∧
    cut (candidate_rts s) bins = inr BIN.
Proof.
  unfold reduce_with, mbind, M_bind, bind, candidate_rts, candidates.
  destruct outfile as [o|]; cbn.
  - unfold copyfile.
    destruct (files w !! infile) as [[[s|] [a|]]|] eqn:Hf; try discriminate;
      (destruct (decide (infile = o)) as [->|Hne]; [discriminate|]);
      cbn; unfold connect; cbn; rewrite lookup_insert_eq; cbn;
      try discriminate.
    + destruct (cut _ bins) as [e|BIN] eqn:Hcut; cbn; discriminate.
    + destruct (cut _ bins) as [e|BIN] eqn:Hcut; cbn; [discriminate|].
      intros _. exists s, BIN. split_and!; [done| |done].
      intros o' [= <-]. congruence.
  - unfold connect.
    destruct (files w !! infile) as [[[s|] [a|]]|] eqn:Hf; cbn;
      try discriminate.
    + destruct (cut _ bins) as [e|BIN] eqn:Hcut; cbn; discriminate.
    + destruct (cut _ bins) as [e|BIN] eqn:Hcut; cbn; [discriminate|].
      intros _. exists s, BIN. split_and!; [done| |done].
      intros o' [=].
Qed.

Lemma reduce_with_ok cut infile outfile bins peptides w w' :
  reduce_with cut infile outfile bins peptides w = (inr (), w') →
  ∃ s BIN,
    files w !! infile = Some (pqp_file s) ∧
    (∀ o, outfile = Some o → o ≠ infile) ∧
    cut (candidate_rts s) bins = inr BIN ∧
    w' = {| files := <[target infile outfile :=
                         pqp_file (cascade (anchors BIN peptides s) s)]> (files w);
            con := None;
            trace := trace w ++ reduce_events infile outfile |}.
Proof.
  intros Hrun.
  destruct (reduce_with_ok_inv _ _ _ _ _ _ _ Hrun) as (s & BIN & Hf & Ho & Hcut).
  exists s, BIN. split_and!; try done.
  rewrite (reduce_with_run _ _ _ _ _ _ _ _ Hf Ho Hcut) in Hrun. congruence.
Qed.

(** A run of [reduce_with] that reaches its end, for a known input store
    and known labels. *)
Lemma reduce_with_ok_store cut infile outfile bins peptides w w' s BIN :
  files w !! infile = Some (pqp_file s) →
  cut (candidate_rts s) bins = inr BIN →
  reduce_with cut infile outfile bins peptides w = (inr (), w') →
  files w' !! target infile outfile =
    Some (pqp_file (cascade (anchors BIN peptides s) s)) ∧
  trace w' = trace w ++ reduce_events infile outfile.
Proof.
  intros Hf Hcut Hrun.
  destruct (reduce_with_ok _ _ _ _ _ _ _ Hrun)
    as (s0 & BIN0 & Hf0 & Ho & Hcut0 & ->).
  rewrite Hf in Hf0. injection Hf0 as <-.
  rewrite Hcut in Hcut0. injection Hcut0 as <-.
  cbn. by rewrite lookup_insert_eq.
Qed.

Lemma reduce_run infile outfile bins peptides w s BIN :
  files w !! infile = Some (pqp_file s) →
  (∀ o, outfile = Some o → o ≠ infile) →
  pd.cut (candidate_rts s) bins = inr BIN →
  reduce infile outfile bins peptides w =
    (inr (),
     {| files := <[target infile outfile :=
                     pqp_file (cascade (anchors BIN peptides s) s)]> (files w);
        con := None;
        trace := trace w ++ reduce_events infile outfile |}).
Proof. apply reduce_with_run. Qed.

Lemma reduce_ok_inv infile outfile bins peptides w w' :
  reduce infile outfile bins peptides w = (inr (), w') →
  ∃ s BIN,
    files w !! infile = Some (pqp_file s) ∧
    (∀ o, outfile = Some o → o ≠ infile) ∧
    pd.cut (candidate_rts s) bins = inr BIN.
Proof. apply reduce_with_ok_inv. Qed.

Lemma reduce_ok infile outfile bins peptides w w' :
  reduce infile outfile bins peptides w = (inr (), w') →
  ∃ s BIN,
    files w !! infile = Some (pqp_file s) ∧
    (∀ o, outfile = Some o → o ≠ infile) ∧
    pd.cut (candidate_rts s) bins = inr BIN ∧
    w' = {| files := <[target infile outfile :=
                         pqp_file (cascade (anchors BIN peptides s) s)]> (files w);
            con := None;
            trace := trace w ++ reduce_events infile outfile |}.
Proof. apply reduce_with_ok. Qed.

(** ** Referential integrity *)

(** A key named in [f <$> tbl] is still named after a [filter] that keeps
    every row with that key. *)
Lemma elem_of_fmap_filter {A : Type} (f : A → Z) (Q : A → Prop)
    `{!∀ x, Decision (Q x)} (tbl : list A) (k : Z) :
  k ∈ f <$> tbl → (∀ x, f x = k → Q x) → k ∈ f <$> filter Q tbl.
Proof.
  intros (x & Hid & Hx)%list_elem_of_fmap HQ.
  apply list_elem_of_fmap. exists x. split; [done|].
  apply list_elem_of_filter. split; [|done]. by apply HQ.
Qed.

Lemma elem_of_fmap_filter_row {B : Type} (g : B → Z) (P : B → Prop)
    `{!∀ x, Decision (P x)} (m : list B) (r : B) :
  r ∈ m → P r → g r ∈ g <$> filter P m.
Proof.
  intros Hr HP. apply list_elem_of_fmap. exists r.
  split; [done|]. by apply list_elem_of_filter.
Qed.

Lemma cascade_referential_integrity a s :
  referential_integrity s → referential_integrity (cascade a s).
Proof.
  rewrite cascade_eq. unfold referential_integrity. cbn.
  rewrite !Forall_forall.
  intros (Htpm & Hppm & Hpp & Hprot & Hpep & Hprec & Htr).
  split_and!.
  - intros r [Hr Hin]%list_elem_of_filter. destruct (Htpm r Hin) as [Ht Hp].
    split.
    + apply elem_of_fmap_filter; [exact Ht|].
      intros x ->. by apply elem_of_fmap_filter_row.
    + apply elem_of_fmap_filter; [exact Hp|]. by intros x ->.
  - intros r [Hr Hin]%list_elem_of_filter. destruct (Hppm r Hin) as [Hp Hq].
    split.
    + apply elem_of_fmap_filter; [exact Hp|]. by intros x ->.
    + apply elem_of_fmap_filter; [exact Hq|].
      intros x ->. by apply elem_of_fmap_filter_row.
  - intros r [Hr Hin]%list_elem_of_filter. destruct (Hpp r Hin) as [Hq Hp].
    split.
    + apply elem_of_fmap_filter; [exact Hq|]. by intros x ->.
    + apply elem_of_fmap_filter; [exact Hp|].
      intros x ->. by apply elem_of_fmap_filter_row.
  - by intros r [Hr Hin]%list_elem_of_filter.
  - intros r [Hr Hin]%list_elem_of_filter. by left.
  - intros r [Hr Hin]%list_elem_of_filter.
    destruct (Hprec r Hin) as [Hm|Hm]; [left|right];
      (apply elem_of_fmap_filter; [exact Hm|]); by intros x ->.
  - by intros r [Hr Hin]%list_elem_of_filter.
Qed.

(** ** [groupby(..).head(n)] *)

Section groupby_head.
Context {A : Type} (key : A → option Z).

Lemma head_rows_sublist n df seen rows :
  pd.head_rows key n df seen rows `sublist_of` rows.
Proof.
  revert seen. induction rows as [|r rest IH]; intros seen; cbn.
  - constructor.
  - destruct (match key r with Some _ => _ | None => _ end); cbn.
    + by apply sublist_skip.
    + by apply sublist_cons.
Qed.

Lemma groupby_head_sublist n df : pd.groupby_head key n df `sublist_of` df.
Proof. apply head_rows_sublist. Qed.




End groupby_head.

Lemma filter_fmap_key {A B : Type} (f : A → B) (key : B → option Z) b (l : list A) :
  filter (λ r, key r = Some b) (f <$> l) = f <$> filter (λ r, key (f r) = Some b) l.
Proof.
  induction l as [|x l IH]; [done|]. cbn [fmap list_fmap].
  destruct (decide (key (f x) = Some b)) as [Hk|Hk].
  - rewrite !filter_cons_True by done. cbn. by rewrite <- IH.
  - by rewrite !filter_cons_False by done.
Qed.

(** [head(n)] commutes with a change of row type that keeps the keys. *)
Lemma head_rows_fmap {A B : Type} (f : A → B) (key : B → option Z) n df seen rows :
  pd.head_rows key n (f <$> df) (f <$> seen) (f <$> rows) =
  f <$> pd.head_rows (λ r, key (f r)) n df seen rows.
Proof.
  revert seen. induction rows as [|r rest IH]; intros seen; [done|].
  cbn [fmap list_fmap pd.head_rows]. rewrite fmap_app.
  change (f r :: (f <$> seen)) with (f <$> (r :: seen)). rewrite IH. f_equal.
  destruct (key (f r)) as [b|]; [|done].
  rewrite !filter_fmap_key, !length_fmap.
  by destruct (if (0 <=? n)%Z then _ else _).
Qed.

Lemma groupby_head_fmap {A B : Type} (f : A → B) (key : B → option Z) n df :
  pd.groupby_head key n (f <$> df) = f <$> pd.groupby_head (λ r, key (f r)) n df.
Proof. apply (head_rows_fmap f key n df [] df). Qed.

Lemma with_BIN_labels (label : Q → option Z) (frame : list Anchor.t) :
  with_BIN frame (label <$> (Anchor.LIBRARY_RT <$> frame)) =
  (λ a, (a, label (Anchor.LIBRARY_RT a))) <$> frame.
Proof.
  unfold with_BIN. induction frame as [|a l IH]; [done|]. cbn. by rewrite IH.
Qed.

(** ** The precursors [reduce] keeps *)

(** The non-decoy precursors of a store and, among them, those kept as
    anchors: the head of each bin. *)
Lemma candidates_eq s :
  candidates s = anchor_row <$> filter (λ r, Precursor.DECOY r = 0%Z) (PRECURSOR s).
Proof. done. Qed.

Lemma anchors_eq bins peptides s BIN :
  pd.cut (candidate_rts s) bins = inr BIN →
  anchors BIN peptides s =
  anchor_row <$>
    pd.groupby_head (λ p, BIN_of bins s (Precursor.LIBRARY_RT p)) peptides
      (filter (λ r, Precursor.DECOY r = 0%Z) (PRECURSOR s)).
Proof.
  unfold pd.cut, BIN_of, bin_edges.
  destruct (pd.nbins_to_bins (candidate_rts s) bins) as [e|edges]; [done|].
  intros [= <-]. unfold anchors, anchors_of, candidate_rts.
  rewrite with_BIN_labels, (groupby_head_fmap _ snd), <- list_fmap_compose.
  cbn. rewrite list_fmap_id, candidates_eq.
  by rewrite (groupby_head_fmap anchor_row).
Qed.

Lemma filter_iff_on {A : Type} (P Q : A → Prop)
    `{!∀ x, Decision (P x), !∀ x, Decision (Q x)} (l : list A) :
  (∀ x, x ∈ l → P x ↔ Q x) → filter P l = filter Q l.
Proof.
  induction l as [|x l IH]; intros Hiff; [done|].
  rewrite !filter_cons. rewrite IH by (intros y Hy; apply Hiff; by right).
  pose proof (Hiff x (list_elem_of_here _ _)) as Hx.
  destruct (decide (P x)) as [HP|HP], (decide (Q x)) as [HQ|HQ];
    try done; tauto.
Qed.

(** Filtering a table on the keys of one of its sublists gives the sublist
    back when the key is unique. *)
Lemma filter_keys_sublist {A : Type} (f : A → Z) (sub tbl : list A) :
  sub `sublist_of` tbl → NoDup (f <$> tbl) →
  filter (λ r, f r ∈ f <$> sub) tbl = sub.
Proof.
  induction 1 as [|x sub tbl Hsub IH|x sub tbl Hsub IH]; intros Hnd; [done| |].
  - cbn in Hnd. apply NoDup_cons in Hnd as [Hx Hnd]. cbn [fmap list_fmap].
    rewrite filter_cons_True by left. f_equal.
    etrans; [|apply (IH Hnd)]. apply filter_iff_on.
    intros y Hy. split.
    + intros [Heq|Hin]%elem_of_cons; [|done].
      exfalso. apply Hx. rewrite <- Heq. by apply list_elem_of_fmap_2.
    + by right.
  - cbn in Hnd. apply NoDup_cons in Hnd as [Hx Hnd].
    rewrite filter_cons_False; [by apply IH|].
    intros Hin. apply Hx.
    apply list_elem_of_fmap in Hin as (y & Heq & Hy). rewrite Heq.
    apply list_elem_of_fmap_2. by eapply elem_of_sublist.
Qed.

Lemma reduce_precursors bins peptides s BIN :
  precursor_key s →
  pd.cut (candidate_rts s) bins = inr BIN →
  PRECURSOR (cascade (anchors BIN peptides s) s) =
  pd.groupby_head (λ p, BIN_of bins s (Precursor.LIBRARY_RT p)) peptides
    (filter (λ r, Precursor.DECOY r = 0%Z) (PRECURSOR s)).
Proof.
  intros Hkey Hcut. rewrite cascade_eq. cbn.
  rewrite (anchors_eq bins) by done. rewrite <- list_fmap_compose.
  apply (filter_keys_sublist Precursor.ID); [|done].
  etrans; [apply groupby_head_sublist|apply sublist_filter].
Qed.

(** ** [pd.cut] *)

Lemma Qmin2_le_l a b : (pd.Qmin2 a b <= a)%Q.
Proof.
  unfold pd.Qmin2. destruct (Qle_bool a b) eqn:H; [apply Qle_refl|].
  apply Qlt_le_weak, Qnot_le_lt. intros Hle. apply Qle_bool_iff in Hle. congruence.
Qed.

Lemma Qmin2_le_r a b : (pd.Qmin2 a b <= b)%Q.
Proof.
  unfold pd.Qmin2. destruct (Qle_bool a b) eqn:H; [by apply Qle_bool_iff|].
  apply Qle_refl.
Qed.

Lemma Qmax2_ge_l a b : (a <= pd.Qmax2 a b)%Q.
Proof.
  unfold pd.Qmax2. destruct (Qle_bool a b) eqn:H; [by apply Qle_bool_iff|].
  apply Qle_refl.
Qed.

Lemma Qmax2_ge_r a b : (b <= pd.Qmax2 a b)%Q.
Proof.
  unfold pd.Qmax2. destruct (Qle_bool a b) eqn:H; [apply Qle_refl|].
  apply Qlt_le_weak, Qnot_le_lt. intros Hle. apply Qle_bool_iff in Hle. congruence.
Qed.

Lemma amin_le x0 xs v : v ∈ x0 :: xs → (pd.amin x0 xs <= v)%Q.
Proof.
  induction xs as [|a xs IH]; cbn.
  - intros ->%list_elem_of_singleton. apply Qle_refl.
  - intros Hv. apply elem_of_cons in Hv as [->|[->|Hv]%elem_of_cons].
    + eapply Qle_trans; [apply Qmin2_le_r|]. apply IH. by left.
    + apply Qmin2_le_l.
    + eapply Qle_trans; [apply Qmin2_le_r|]. apply IH. by right.
Qed.

Lemma amax_ge x0 xs v : v ∈ x0 :: xs → (v <= pd.amax x0 xs)%Q.
Proof.
  induction xs as [|a xs IH]; cbn.
  - intros ->%list_elem_of_singleton. apply Qle_refl.
  - intros Hv. apply elem_of_cons in Hv as [->|[->|Hv]%elem_of_cons].
    + eapply Qle_trans; [|apply Qmax2_ge_r]. apply IH. by left.
    + apply Qmax2_ge_l.
    + eapply Qle_trans; [|apply Qmax2_ge_r]. apply IH. by right.
Qed.

Lemma searchsorted_right_le bins v :
  pd.searchsorted_right bins v ≤ length bins.
Proof.
  induction bins as [|e rest IH]; cbn; [done|].
  destruct (Qle_bool e v); lia.
Qed.

(** The edges before the insertion point are [<= v] ... *)
Lemma searchsorted_right_before bins v i e :
  i < pd.searchsorted_right bins v → bins !! i = Some e → (e <= v)%Q.
Proof.
  revert i. induction bins as [|e0 rest IH]; intros i; cbn; [lia|].
  destruct (Qle_bool e0 v) eqn:Hle; [|lia].
  destruct i as [|i]; cbn.
  - intros _ [= <-]. by apply Qle_bool_iff.
  - intros Hi. apply IH. lia.
Qed.

(** ... and the edge at the insertion point is [> v]. *)
Lemma searchsorted_right_at bins v e :
  bins !! pd.searchsorted_right bins v = Some e → (v < e)%Q.
Proof.
  induction bins as [|e0 rest IH]; cbn; [done|].
  destruct (Qle_bool e0 v) eqn:Hle; cbn; [done|].
  intros [= <-]. apply Qnot_le_lt. intros H. apply Qle_bool_iff in H. congruence.
Qed.

Lemma searchsorted_right_pos e0 rest v :
  (e0 <= v)%Q → 1 ≤ pd.searchsorted_right (e0 :: rest) v.
Proof. intros H%Qle_bool_iff. cbn. rewrite H. lia. Qed.

Lemma searchsorted_right_last body last v :
  (v < last)%Q → pd.searchsorted_right (body ++ [last]) v ≤ length body.
Proof.
  intros Hlt. induction body as [|e rest IH]; cbn.
  - destruct (Qle_bool last v) eqn:H; [|done].
    apply Qle_bool_iff in H. exfalso. by eapply Qlt_not_le.
  - destruct (Qle_bool e v); lia.
Qed.

(** What [bin_label] says about the value it labels. *)
Lemma bin_label_Some edges v b :
  pd.bin_label edges v = Some b →
  (0 ≤ b)%Z ∧ Z.to_nat b + 1 < length edges ∧
  ∃ lo hi, edges !! Z.to_nat b = Some lo ∧ edges !! S (Z.to_nat b) = Some hi
           ∧ (lo <= v)%Q ∧ (v < hi)%Q.
Proof.
  unfold pd.bin_label.
  pose proof (searchsorted_right_le edges v) as Hle.
  destruct (Nat.eqb_spec (pd.searchsorted_right edges v) 0) as [|Hpos]; [done|].
  destruct (Nat.eqb_spec (pd.searchsorted_right edges v) (length edges))
    as [|Hlast]; [done|].
  cbn. intros [= <-].
  replace (Z.to_nat (Z.of_nat (pd.searchsorted_right edges v) - 1))
    with (pd.searchsorted_right edges v - 1) by lia.
  replace (S (pd.searchsorted_right edges v - 1))
    with (pd.searchsorted_right edges v) by lia.
  split; [lia|]. split; [lia|].
  destruct (lookup_lt_is_Some_2 edges (pd.searchsorted_right edges v - 1))
    as [lo Hlo]; [lia|].
  destruct (lookup_lt_is_Some_2 edges (pd.searchsorted_right edges v))
    as [hi Hhi]; [lia|].
  exists lo, hi. split_and!; try done.
  - eapply searchsorted_right_before; [|done]. lia.
  - by eapply searchsorted_right_at.
Qed.

Lemma add_last_snoc body e adj :
  pd.add_last (body ++ [e]) adj = body ++ [(e + adj)%Q].
Proof.
  induction body as [|a rest IH]; [done|].
  cbn [app pd.add_last]. rewrite IH. by destruct rest.
Qed.

Lemma nbins_to_bins_inr x bins edges :
  pd.nbins_to_bins x bins = inr edges → (1 ≤ bins)%Z ∧ x ≠ [].
Proof.
  unfold pd.nbins_to_bins. destruct (Z.ltb_spec bins 1); [done|].
  by destruct x.
Qed.

Lemma Qeq_bool_false_neq a b : Qeq_bool a b = false → ¬ (a == b)%Q.
Proof. intros H Heq. apply Qeq_bool_iff in Heq. congruence. Qed.

Lemma pad_pos m :
  (0 < (if negb (Qeq_bool m 0) then (1 # 1000) * Qabs m else 1 # 1000))%Q.
Proof.
  destruct (Qeq_bool m 0) eqn:H; cbn; [reflexivity|].
  apply Qeq_bool_false_neq in H.
  destruct (Qlt_le_dec 0 m) as [Hpos|Hneg].
  - rewrite Qabs_pos by lra. lra.
  - rewrite Qabs_neg by lra. lra.
Qed.

Lemma add_last_cons_snoc e0 mid e adj :
  pd.add_last (e0 :: mid ++ [e]) adj = e0 :: mid ++ [(e + adj)%Q].
Proof. apply (add_last_snoc (e0 :: mid)). Qed.

Lemma linspace_shape start stop div :
  (1 ≤ div)%Z →
  pd.linspace start stop div =
  (start + 0 * ((stop - start) / inject_Z div))%Q
  :: ((λ i : nat, (start + inject_Z (Z.of_nat i)
                           * ((stop - start) / inject_Z div))%Q)
      <$> seq 1 (Z.to_nat div - 1))
  ++ [stop].
Proof.
  intros Hdiv. unfold pd.linspace.
  assert (Z.to_nat div = S (Z.to_nat div - 1)) as Hn by lia.
  rewrite Hn at 1. done.
Qed.

(** The edges of a successful [pd.cut]: a first edge below every value, a
    last edge above every value, [bins + 1] edges in all. *)
Lemma nbins_to_bins_shape x bins edges :
  pd.nbins_to_bins x bins = inr edges →
  ∃ e0 mid last,
    edges = e0 :: mid ++ [last] ∧ length mid = Z.to_nat bins - 1 ∧
    ∀ v, v ∈ x → (e0 <= v)%Q ∧ (v < last)%Q.
Proof.
  intros H. destruct (nbins_to_bins_inr _ _ _ H) as [Hbins Hx].
  unfold pd.nbins_to_bins in H. destruct (Z.ltb_spec bins 1); [lia|].
  destruct x as [|x0 xs]; [done|].
  rewrite !linspace_shape, add_last_cons_snoc in H by done.
  destruct (Qeq_bool _ _) eqn:Hdeg; injection H as <-.
  - eexists _, _, _. split; [reflexivity|]. split.
    { by rewrite length_fmap, length_seq. }
    intros v Hv. pose proof (amin_le _ _ _ Hv). pose proof (amax_ge _ _ _ Hv).
    pose proof (pad_pos (pd.amin x0 xs)). pose proof (pad_pos (pd.amax x0 xs)).
    split; lra.
  - eexists _, _, _. split; [reflexivity|]. split.
    { by rewrite length_fmap, length_seq. }
    intros v Hv. pose proof (amin_le _ _ _ Hv). pose proof (amax_ge _ _ _ Hv).
    apply Qeq_bool_false_neq in Hdeg. split; [lra|].
    assert (pd.amin x0 xs < pd.amax x0 xs)%Q; [|lra].
    apply Qnot_le_lt. intros Hle. apply Hdeg. apply Qle_antisym; lra.
Qed.

(** Every value that was cut gets a bin, one of [0 .. bins - 1]. *)
Lemma bin_label_in_range x bins edges v :
  pd.nbins_to_bins x bins = inr edges → v ∈ x →
  ∃ b, pd.bin_label edges v = Some b ∧ (0 ≤ b < bins)%Z.
Proof.
  intros H Hv. destruct (nbins_to_bins_inr _ _ _ H) as [Hbins _].
  destruct (nbins_to_bins_shape _ _ _ H) as (e0 & mid & last & -> & Hmid & Hbounds).
  destruct (Hbounds v Hv) as [Hlo Hhi].
  pose proof (searchsorted_right_pos e0 (mid ++ [last]) v Hlo) as Hpos.
  pose proof (searchsorted_right_last (e0 :: mid) last v Hhi) as Hlast.
  cbn [app length] in Hlast.
  unfold pd.bin_label. cbn [length]. rewrite length_app. cbn [length].
  destruct (Nat.eqb_spec (pd.searchsorted_right (e0 :: mid ++ [last]) v) 0); [lia|].
  destruct (Nat.eqb_spec (pd.searchsorted_right (e0 :: mid ++ [last]) v)
              (S (length mid + 1))); [lia|].
  cbn [orb]. eexists. split; [done|]. lia.
Qed.

(** When the retention times are not all equal, the edges other than the
    last are those of the specification's bins, so the bin [pd.cut] assigns
    is the specification's bin. *)
Lemma nbins_to_bins_spread x0 xs bins :
  (1 ≤ bins)%Z → Qeq_bool (pd.amin x0 xs) (pd.amax x0 xs) = false →
  pd.nbins_to_bins (x0 :: xs) bins =
  inr (((λ i : nat, spec_bin_low (pd.amin x0 xs) (pd.amax x0 xs) bins (Z.of_nat i))
        <$> seq 0 (Z.to_nat bins))
       ++ [(pd.amax x0 xs + (pd.amax x0 xs - pd.amin x0 xs) * (1 # 1000))%Q]).
Proof.
  intros Hbins Hdeg. unfold pd.nbins_to_bins.
  destruct (Z.ltb_spec bins 1); [lia|]. rewrite Hdeg.
  unfold pd.linspace. by rewrite add_last_snoc.
Qed.

Lemma bin_label_in_spec_bin x0 xs bins edges v b :
  Qeq_bool (pd.amin x0 xs) (pd.amax x0 xs) = false →
  pd.nbins_to_bins (x0 :: xs) bins = inr edges →
  v ∈ x0 :: xs →
  pd.bin_label edges v = Some b →
  in_spec_bin (pd.amin x0 xs) (pd.amax x0 xs) bins b v.
Proof.
  intros Hdeg Hedges Hv Hb.
  destruct (nbins_to_bins_inr _ _ _ Hedges) as [Hbins _].
  rewrite nbins_to_bins_spread in Hedges by done. injection Hedges as <-.
  apply bin_label_Some in Hb as (Hb0 & Hlen & lo & hi & Hlo & Hhi & Hle & Hlt).
  rewrite length_app, length_fmap, length_seq in Hlen. cbn in Hlen.
  rewrite lookup_app_l in Hlo by (rewrite length_fmap, length_seq; lia).
  rewrite list_lookup_fmap, lookup_seq_lt in Hlo by lia.
  cbn in Hlo. injection Hlo as <-. rewrite Z2Nat.id in Hle by done.
  split; [done|].
  destruct (decide (b = bins - 1)%Z) as [->|Hne].
  - by apply amax_ge.
  - rewrite lookup_app_l in Hhi by (rewrite length_fmap, length_seq; lia).
    rewrite list_lookup_fmap, lookup_seq_lt in Hhi by lia.
    cbn [fmap option_fmap option_map plus] in Hhi. injection Hhi as <-.
    by replace (Z.of_nat (S (Z.to_nat b))) with (b + 1)%Z in Hlt by lia.
Qed.

(** The edges are strictly increasing: [searchsorted] is given a sorted
    array, and no two edges are equal. *)
Lemma fmap_seq_increasing (f : nat → Q) :
  (∀ i j, i < j → (f i < f j)%Q) →
  ∀ n k, StronglySorted Qlt (f <$> seq k n).
Proof.
  intros Hf. induction n as [|n IH]; intros k; cbn; constructor; [apply IH|].
  apply Forall_forall. intros x (j & -> & Hj)%list_elem_of_fmap.
  apply elem_of_seq in Hj. apply Hf. lia.
Qed.

Lemma linspace_increasing start stop div :
  (1 ≤ div)%Z → (start < stop)%Q →
  StronglySorted Qlt (pd.linspace start stop div).
Proof.
  intros Hdiv Hlt. unfold pd.linspace.
  assert (0 < inject_Z div)%Q as Hd.
  { change 0%Q with (inject_Z 0). rewrite <- Zlt_Qlt. lia. }
  assert (0 < (stop - start) / inject_Z div)%Q as Hstep.
  { apply Qlt_shift_div_l; [done|]. lra. }
  assert (Hmono : ∀ i j : nat, i < j →
            (inject_Z (Z.of_nat i) * ((stop - start) / inject_Z div)
             < inject_Z (Z.of_nat j) * ((stop - start) / inject_Z div))%Q).
  { intros i j Hij. apply Qmult_lt_compat_r; [done|].
    rewrite <- Zlt_Qlt. lia. }
  apply StronglySorted_app_2.
  - intros x1 x2 (i & -> & Hi)%list_elem_of_fmap ->%list_elem_of_singleton.
    apply elem_of_seq in Hi.
    assert (inject_Z (Z.of_nat i) * ((stop - start) / inject_Z div)
            < inject_Z div * ((stop - start) / inject_Z div))%Q as Hi'.
    { apply Qmult_lt_compat_r; [done|]. rewrite <- Zlt_Qlt. lia. }
    assert (inject_Z div * ((stop - start) / inject_Z div) == stop - start)%Q
      as Hfull by (field; lra).
    lra.
  - apply fmap_seq_increasing. intros i j Hij. specialize (Hmono i j Hij). lra.
  - repeat constructor.
Qed.

Lemma nbins_to_bins_increasing x bins edges :
  pd.nbins_to_bins x bins = inr edges → StronglySorted Qlt edges.
Proof.
  intros H. destruct (nbins_to_bins_inr _ _ _ H) as [Hbins _].
  unfold pd.nbins_to_bins in H. destruct (Z.ltb_spec bins 1); [lia|].
  destruct x as [|x0 xs]; [done|].
  pose proof (amin_le x0 xs x0 (list_elem_of_here _ _)) as Hmin.
  pose proof (amax_ge x0 xs x0 (list_elem_of_here _ _)) as Hmax.
  destruct (Qeq_bool _ _) eqn:Hdeg; injection H as <-.
  - apply linspace_increasing; [done|].
    pose proof (pad_pos (pd.amin x0 xs)). pose proof (pad_pos (pd.amax x0 xs)).
    lra.
  - apply Qeq_bool_false_neq in Hdeg.
    assert (pd.amin x0 xs < pd.amax x0 xs)%Q as Hlt.
    { apply Qnot_le_lt. intros Hle. apply Hdeg. apply Qle_antisym; lra. }
    pose proof (linspace_increasing _ _ bins Hbins Hlt) as Hsorted.
    unfold pd.linspace in *. rewrite add_last_snoc.
    apply StronglySorted_app in Hsorted as (Hlast & Hbody & _).
    apply StronglySorted_app_2; [|done|repeat constructor].
    intros x1 x2 Hx1 ->%list_elem_of_singleton.
    specialize (Hlast x1 _ Hx1 (list_elem_of_here _ _)). lra.
Qed.

Lemma anchors_eq_candidates bins peptides s BIN :
  pd.cut (candidate_rts s) bins = inr BIN →
  anchors BIN peptides s =
  pd.groupby_head (λ a, BIN_of bins s (Anchor.LIBRARY_RT a)) peptides
    (candidates s).
Proof.
  unfold pd.cut, BIN_of, bin_edges.
  destruct (pd.nbins_to_bins (candidate_rts s) bins) as [e|edges]; [done|].
  intros [= <-]. unfold anchors, anchors_of, candidate_rts.
  rewrite with_BIN_labels, (groupby_head_fmap _ snd), <- list_fmap_compose.
  cbn. by rewrite list_fmap_id.
Qed.


Lemma cut_inr_inv x bins BIN :
  pd.cut x bins = inr BIN →
  (1 ≤ bins)%Z ∧ x ≠ [] ∧ ∃ edges, pd.nbins_to_bins x bins = inr edges.
Proof.
  unfold pd.cut. destruct (pd.nbins_to_bins x bins) as [e|edges] eqn:H; [done|].
  intros _. destruct (nbins_to_bins_inr _ _ _ H). eauto.
Qed.

(** Rows of a table with a unique key are equal when their keys are. *)
Lemma NoDup_fmap_eq {A : Type} (f : A → Z) (l : list A) (x y : A) :
  NoDup (f <$> l) → x ∈ l → y ∈ l → f x = f y → x = y.
Proof.
  induction l as [|a l IH]; [by intros _ ?%elem_of_nil|].
  cbn. intros [Ha Hnd]%NoDup_cons [->|Hx]%elem_of_cons [->|Hy]%elem_of_cons Heq.
  - done.
  - exfalso. apply Ha. rewrite Heq. by apply list_elem_of_fmap_2.
  - exfalso. apply Ha. rewrite <- Heq. by apply list_elem_of_fmap_2.
  - by apply IH.
Qed.

Lemma kept_sublist bins peptides s :
  pd.groupby_head (λ p, BIN_of bins s (Precursor.LIBRARY_RT p)) peptides
    (filter (λ r, Precursor.DECOY r = 0%Z) (PRECURSOR s))
  `sublist_of` filter (λ r, Precursor.DECOY r = 0%Z) (PRECURSOR s).
Proof. apply groupby_head_sublist. Qed.

(** ** The bins depend on the retention times through their range only *)








(** ** Running [head(n)] again *)






(** ** Running the cascade again *)




(** ** Runs of [reduce] on a known store *)

Lemma pqp_file_inj s1 s2 : pqp_file s1 = pqp_file s2 → s1 = s2.
Proof. by intros [= ->]. Qed.

(** A run of [reduce] that reaches its end, for a known input store. *)
Lemma reduce_ok_store infile outfile bins peptides w w' s :
  files w !! infile = Some (pqp_file s) →
  reduce infile outfile bins peptides w = (inr (), w') →
  ∃ BIN,
    pd.cut (candidate_rts s) bins = inr BIN ∧
    files w' !! target infile outfile =
      Some (pqp_file (cascade (anchors BIN peptides s) s)) ∧
    trace w' = trace w ++ reduce_events infile outfile.
Proof.
  intros Hf Hrun.
  destruct (reduce_ok _ _ _ _ _ _ Hrun) as (s0 & BIN & Hf0 & Ho & Hcut & ->).
  rewrite Hf in Hf0. injection Hf0 as <-.
  exists BIN. cbn. by rewrite lookup_insert_eq.
Qed.

(** ** Which files a run writes *)

Lemma triple_bind {A B : Type} P (m : M A) R (k : A → M B) Q E :
  triple P m R E → (∀ a, triple (R a) (k a) Q E) → triple P (m ≫= k) Q E.
Proof.
  intros Hm Hk w HP. specialize (Hm w HP).
  unfold mbind, M_bind, bind. destruct (m w) as [[e|a] w1]; [done|].
  by apply Hk.
Qed.

Lemma triple_ret {A : Type} (P : world → Prop) (a : A) E :
  triple P (ret a) (λ a' w, a' = a ∧ P w) E.
Proof. by intros w HP. Qed.

Section frame.
Context (w0 : world) (path : string).

Lemma triple_copyfile src :
  triple (others_as_in w0 path) (copyfile src path)
         (λ _, others_as_in w0 path) (others_as_in w0 path).
Proof.
  intros w HP. unfold copyfile. destruct (files w !! src); [|done].
  destruct (decide (src = path)); [done|].
  intros p Hp. cbn. rewrite lookup_insert_ne by done. by apply HP.
Qed.

Lemma triple_connect :
  triple (others_as_in w0 path) (connect path)
         (λ _, connected w0 path) (others_as_in w0 path).
Proof.
  intros w HP. unfold connect. destruct (files w !! path); split.
  - done.
  - by intros c [= <-].
  - intros p Hp. cbn. rewrite lookup_insert_ne by done. by apply HP.
  - by intros c [= <-].
Qed.

Lemma triple_read_sql :
  triple (connected w0 path) read_sql_anchor_candidates
         (λ _, connected w0 path) (others_as_in w0 path).
Proof.
  intros w [HP Hc]. unfold read_sql_anchor_candidates.
  destruct (con w) as [c|] eqn:Hcon; [|done]. destruct (pqp (con_db c)); [|done].
  split; [done|]. intros c' Hc'. cbn in Hc'. apply Hc. congruence.
Qed.

Lemma triple_to_sql frame :
  triple (connected w0 path) (to_sql_temp_anchors frame)
         (λ _, connected w0 path) (others_as_in w0 path).
Proof.
  intros w [HP Hc]. unfold to_sql_temp_anchors.
  destruct (con w) as [c|] eqn:Hcon; [|done].
  destruct (temp_anchors (con_db c)); [done|].
  specialize (Hc c Hcon). split.
  - intros p Hp. cbn. rewrite lookup_insert_ne by congruence. by apply HP.
  - by intros c' [= <-].
Qed.

Lemma triple_execute q :
  triple (connected w0 path) (execute q)
         (λ _, connected w0 path) (others_as_in w0 path).
Proof.
  intros w [HP Hc]. unfold execute.
  destruct (con w) as [c|] eqn:Hcon; [|done].
  destruct (run_sql q (con_db c)); [done|].
  specialize (Hc c Hcon). split; [done|]. by intros c' [= <-].
Qed.

Lemma triple_commit :
  triple (connected w0 path) commit
         (λ _, connected w0 path) (others_as_in w0 path).
Proof.
  intros w [HP Hc]. unfold commit.
  destruct (con w) as [c|] eqn:Hcon; [|done].
  pose proof (Hc c Hcon) as Hpath. split; [|by intros c' [= <-]].
  intros p Hp. cbn. rewrite lookup_insert_ne by congruence. by apply HP.
Qed.

Lemma triple_lift {A : Type} (r : exn + A) :
  triple (connected w0 path) (lift r)
         (λ _, connected w0 path) (others_as_in w0 path).
Proof. intros w [HP Hc]. by destruct r. Qed.

Lemma triple_close :
  triple (connected w0 path) close
         (λ _, connected w0 path) (others_as_in w0 path).
Proof. intros w [HP Hc]. split; [done|]. by intros c. Qed.

Lemma triple_echo msg :
  triple (connected w0 path) (echo msg)
         (λ _, others_as_in w0 path) (others_as_in w0 path).
Proof. by intros w [HP Hc]. Qed.

End frame.

Create HintDb triples discriminated.

#[local] Hint Resolve triple_read_sql triple_to_sql triple_execute
  triple_commit triple_close triple_echo triple_lift : triples.

Ltac triple_steps :=
  repeat (eapply triple_bind; [solve [eauto with triples]|intros ?]);
  cbn beta; eauto with triples.

(** With an output path given, [reduce] writes no file but the one at that
    path. *)
Lemma reduce_writes_outfile infile o bins peptides w p :
  p ≠ o → files (reduce infile (Some o) bins peptides w).2 !! p = files w !! p.
Proof.
  intros Hp.
  assert (triple (others_as_in w o) (reduce infile (Some o) bins peptides)
                 (λ _, others_as_in w o) (others_as_in w o)) as Htriple.
  { unfold reduce, reduce_with.
    eapply triple_bind.
    { eapply triple_bind; [apply triple_copyfile|].
      intros []. apply triple_ret. }
    intros o' w1 [Ho H1]. subst o'. revert w1 H1.
    eapply triple_bind; [apply triple_connect|]. intros [].
    triple_steps. }
  specialize (Htriple w (λ _ _, eq_refl)).
  destruct (reduce infile (Some o) bins peptides w) as [[e|[]] w']; by apply Htriple.
Qed.

(** ** The anchors, whatever the labels *)

Lemma with_BIN_fmap (f : Precursor.t → Anchor.t) (l : list Precursor.t) BIN :
  with_BIN (f <$> l) BIN = (λ r, (f r.1, r.2)) <$> zip l BIN.
Proof.
  unfold with_BIN. revert BIN. induction l as [|x l IH]; intros [|b BIN]; cbn;
    try done. by rewrite IH.
Qed.

Lemma anchors_binned BIN peptides s :
  anchors BIN peptides s =
  anchor_row <$> (pd.groupby_head snd peptides (binned s BIN)).*1.
Proof.
  unfold anchors, anchors_of, binned. rewrite candidates_eq, with_BIN_fmap.
  rewrite (groupby_head_fmap _ snd). cbn.
  by rewrite <- !list_fmap_compose.
Qed.

Lemma zip_fst_sublist {A B : Type} (l : list A) (k : list B) :
  (zip l k).*1 `sublist_of` l.
Proof.
  revert k. induction l as [|x l IH]; intros [|y k]; cbn; try done.
  - apply sublist_nil_l.
  - by apply sublist_skip.
Qed.



(** The precursors the cascade leaves are the rows [head] kept, the
    precursor key being unique. *)
Lemma reduce_with_precursors BIN peptides s :
  precursor_key s →
  PRECURSOR (cascade (anchors BIN peptides s) s) =
  (pd.groupby_head snd peptides (binned s BIN)).*1.
Proof.
  intros Hkey. rewrite cascade_eq. cbn.
  rewrite anchors_binned, <- list_fmap_compose.
  apply (filter_keys_sublist Precursor.ID); [|done].
  etrans; [apply fmap_sublist, groupby_head_sublist|].
  etrans; [apply zip_fst_sublist|apply sublist_filter].
Qed.



(** ** [pd.cut] with the edges given *)


Lemma has_duplicates_increasing edges :
  StronglySorted Qlt edges → pd.has_duplicates edges = false.
Proof.
  induction 1 as [|e rest Hsorted IH Hall]; [done|]. cbn. rewrite IH, orb_false_r.
  apply not_true_is_false. intros (e' & He' & Heq)%existsb_exists.
  apply Qeq_bool_iff in Heq. apply list_elem_of_In in He'.
  rewrite Forall_forall in Hall. specialize (Hall e' He'). rewrite Heq in Hall.
  by apply Qlt_irrefl in Hall.
Qed.

(** With the edges of exact arithmetic no two edges are equal, and
    [pd.cut_with] is [pd.cut]. *)
Lemma cut_with_exact repr x n :
  pd.cut_with pd.nbins_to_bins repr x n = pd.cut x n.
Proof.
  unfold pd.cut_with, pd.cut, pd.bins_to_cuts.
  destruct (pd.nbins_to_bins x n) as [e|edges] eqn:Hedges; [done|].
  by rewrite (has_duplicates_increasing edges)
    by (by eapply nbins_to_bins_increasing).
Qed.

(** ** [head(n)] at its two ends *)

Lemma head_rows_zero {A : Type} (key : A → option Z) df seen rows :
  pd.head_rows key 0 df seen rows = [].
Proof.
  revert seen. induction rows as [|r rest IH]; intros seen; [done|].
  cbn [pd.head_rows]. rewrite IH. destruct (key r) as [b|]; [|done].
  cbn. by destruct (Z.ltb_spec (Z.of_nat (length (filter (λ r', key r' = Some b) seen))) 0);
    [lia|].
Qed.

Lemma head_rows_large {A : Type} (key : A → option Z) n df seen rows :
  (∀ b, Z.of_nat (length (filter (λ r, key r = Some b) seen)
                  + length (filter (λ r, key r = Some b) rows)) ≤ n)%Z →
  pd.head_rows key n df seen rows = filter (λ r, is_Some (key r)) rows.
Proof.
  revert seen. induction rows as [|r rest IH]; intros seen Hsize; [done|].
  cbn [pd.head_rows]. rewrite IH.
  - destruct (key r) as [b|] eqn:Hb.
    + pose proof (Hsize b) as Hsb.
      rewrite (filter_cons_True _ r rest) in Hsb by done. cbn [length] in Hsb.
      assert ((0 <=? n)%Z = true) as -> by lia.
      assert ((Z.of_nat (length (filter (λ r', key r' = Some b) seen)) <? n)%Z
              = true) as -> by lia.
      rewrite filter_cons_True; [done|]. by rewrite Hb.
    + rewrite filter_cons_False; [done|]. rewrite Hb. by intros [? ?].
  - intros b'. specialize (Hsize b'). rewrite !filter_cons in *.
    destruct (decide (key r = Some b')); cbn [length] in *; lia.
Qed.

Lemma groupby_head_large {A : Type} (key : A → option Z) n df :
  (Z.of_nat (length df) ≤ n)%Z →
  pd.groupby_head key n df = filter (λ r, is_Some (key r)) df.
Proof.
  intros Hlen. apply head_rows_large. intros b. rewrite filter_nil. cbn [length].
  pose proof (length_filter (λ r, key r = Some b) df). lia.
Qed.

Lemma filter_none {A : Type} (P : A → Prop) `{!∀ x, Decision (P x)} (l : list A) :
  (∀ x, x ∈ l → ¬ P x) → filter P l = [].
Proof.
  induction l as [|x l IH]; intros Hnone; [done|].
  rewrite filter_cons_False by (apply Hnone; by left).
  apply IH. intros y Hy. apply Hnone. by right.
Qed.

Lemma cascade_nil s : cascade [] s = empty_store.
Proof.
  rewrite cascade_eq. cbn.
  rewrite (filter_none _ (PRECURSOR s)) by (intros ? _ ?%elem_of_nil; done).
  rewrite (filter_none _ (TRANSITION_PRECURSOR_MAPPING s))
    by (intros ? _ ?%elem_of_nil; done).
  rewrite (filter_none _ (PRECURSOR_PEPTIDE_MAPPING s))
    by (intros ? _ ?%elem_of_nil; done).
  cbn.
  rewrite (filter_none _ (PEPTIDE_PROTEIN_MAPPING s))
    by (intros ? _ ?%elem_of_nil; done).
  cbn.
  rewrite (filter_none _ (PROTEIN s)) by (intros ? _ ?%elem_of_nil; done).
  rewrite (filter_none _ (PEPTIDE s)) by (intros ? _ ?%elem_of_nil; done).
  rewrite (filter_none _ (TRANSITION s)) by (intros ? _ ?%elem_of_nil; done).
  done.
Qed.

(** * The claims *)

(** C1. Referential integrity is preserved: when [reduce] completes on a
    store in which every mapping row references existing rows in both
    linked tables and every protein, peptide, precursor and transition is
    referenced by a mapping row, the same holds of the reduced store. *)
Theorem reduce_referential_integrity infile outfile bins peptides w w' s :
  files w !! infile = Some (pqp_file s) →
  referential_integrity s →
  reduce infile outfile bins peptides w = (inr (), w') →
  ∃ s', files w' !! target infile outfile = Some (pqp_file s')
        ∧ referential_integrity s'.
Proof.
  intros Hf Hinv Hrun.
  destruct (reduce_ok_store _ _ _ _ _ _ _ Hf Hrun) as (BIN & _ & Hout & _).
  eexists. split; [exact Hout|]. by apply cascade_referential_integrity.
Qed.

Lemma reduce_referential_integrity_witness :
  files ex_world1 !! "in.pqp" = Some (pqp_file ex_store1)
  ∧ referential_integrity ex_store1
  ∧ reduce "in.pqp" (Some "out.pqp") 2 2 ex_world1 = (inr (), ex_world1_reduced)
  ∧ ∃ s', files ex_world1_reduced !! "out.pqp" = Some (pqp_file s')
          ∧ referential_integrity s'.
Proof.
  assert (H1 : files ex_world1 !! "in.pqp" = Some (pqp_file ex_store1))
    by (vm_compute; reflexivity).
  assert (H2 : referential_integrity ex_store1) by compute_done.
  assert (H3 : reduce "in.pqp" (Some "out.pqp") 2 2 ex_world1
               = (inr (), ex_world1_reduced)) by (vm_compute; reflexivity).
  split_and!; [exact H1|exact H2|exact H3|].
  exact (reduce_referential_integrity "in.pqp" (Some "out.pqp") 2 2
           ex_world1 ex_world1_reduced ex_store1 H1 H2 H3).
Defined.







(** C4, as stated, fails: in a run of [reduce] the commit comes before the
    [VACUUM] that reclaims the storage, not after it. *)
Lemma reduce_commit_counterexample :
  reduce "in.pqp" (Some "out.pqp") 2 2 ex_world1 = (inr (), ex_world1_reduced)
  ∧ trace ex_world1_reduced !! 12 = Some EvCommit
  ∧ trace ex_world1_reduced !! 13 = Some (EvExecute VACUUM).
Proof. split_and!; vm_compute; reflexivity. Qed.

(** C4, amended. In every run of [reduce] that completes, the commit comes
    after the seven [DELETE] statements of the cascade and the drop of
    [temp_anchors], and before the [VACUUM]; it is the only commit, the
    [VACUUM] is the only one, and after the [VACUUM] the connection is
    closed and the message printed. *)
Theorem reduce_commit_order infile outfile bins peptides w w' :
  reduce infile outfile bins peptides w = (inr (), w') →
  ∃ before msg,
    trace w' = trace w ++ before
                 ++ [EvCommit; EvExecute VACUUM; EvClose; EvEcho msg] ∧
    (∀ q, q ∈ cascade_statements → EvExecute q ∈ before) ∧
    EvExecute DROP_TABLE_temp_anchors ∈ before ∧
    (EvCommit ∉ before) ∧
    (EvExecute VACUUM ∉ before).
Proof.
  intros Hrun.
  destruct (reduce_ok _ _ _ _ _ _ Hrun) as (s & BIN & _ & _ & _ & ->).
  cbn [trace]. unfold reduce_events.
  exists ((match outfile with None => [] | Some o => [EvCopyfile infile o] end)
          ++ [EvConnect (target infile outfile); EvReadSql; EvToSql]
          ++ (EvExecute <$> cascade_statements)
          ++ [EvExecute DROP_TABLE_temp_anchors]).
  eexists. split.
  { rewrite <- !app_assoc. reflexivity. }
  split_and!.
  - intros q Hq. rewrite !elem_of_app. right. right. left.
    by apply list_elem_of_fmap_2.
  - rewrite !elem_of_app. right. right. right. by left.
  - destruct outfile; cbn; rewrite !not_elem_of_cons;
      (split_and!; [done..|apply not_elem_of_nil]).
  - destruct outfile; cbn; rewrite !not_elem_of_cons;
      (split_and!; [done..|apply not_elem_of_nil]).
Qed.

Lemma reduce_commit_order_witness :
  reduce "in.pqp" (Some "out.pqp") 2 2 ex_world1 = (inr (), ex_world1_reduced)
  ∧ ∃ before msg,
      trace ex_world1_reduced
        = trace ex_world1 ++ before
            ++ [EvCommit; EvExecute VACUUM; EvClose; EvEcho msg] ∧
      (∀ q, q ∈ cascade_statements → EvExecute q ∈ before) ∧
      EvExecute DROP_TABLE_temp_anchors ∈ before ∧
      (EvCommit ∉ before) ∧
      (EvExecute VACUUM ∉ before).
Proof.
  assert (H1 : reduce "in.pqp" (Some "out.pqp") 2 2 ex_world1
               = (inr (), ex_world1_reduced)) by (vm_compute; reflexivity).
  split; [exact H1|].
  exact (reduce_commit_order "in.pqp" (Some "out.pqp") 2 2
           ex_world1 ex_world1_reduced H1).
Defined.

(** C5, as stated, fails: with zero bins requested, [reduce] has copied the
    input to the output path, opened the copy and read the candidates from
    it when the error is raised. *)
Lemma reduce_zero_bins_counterexample :
  files ex_world1 !! "out.pqp" = None
  ∧ (reduce "in.pqp" (Some "out.pqp") 0 5 ex_world1).1
    = inl (ValueError "`bins` should be a positive integer.")
  ∧ files (reduce "in.pqp" (Some "out.pqp") 0 5 ex_world1).2 !! "out.pqp"
    = Some (pqp_file ex_store1)
  ∧ trace (reduce "in.pqp" (Some "out.pqp") 0 5 ex_world1).2
    = [EvCopyfile "in.pqp" "out.pqp"; EvConnect "out.pqp"; EvReadSql].
Proof. split_and!; vm_compute; reflexivity. Qed.

(** C5, amended. With zero bins requested [reduce] never completes.  On an
    input that is a PQP file, with an output path other than the input
    path, it copies the input to the output path, opens the copy, reads the
    candidates, and then raises the [ValueError] of the binning step; the
    copy stays as copied, with nothing deleted. *)
Theorem reduce_zero_bins infile o peptides w s :
  files w !! infile = Some (pqp_file s) →
  o ≠ infile →
  reduce infile (Some o) 0 peptides w =
    (inl (ValueError "`bins` should be a positive integer."),
     {| files := <[o := pqp_file s]> (files w);
        con := Some {| con_path := o; con_db := pqp_file s |};
        trace := trace w ++ [EvCopyfile infile o; EvConnect o; EvReadSql] |})
  ∧ ∀ infile' outfile' peptides' w0,
      (reduce infile' outfile' 0 peptides' w0).1 ≠ inr ().
Proof.
  intros Hf Ho. split.
  - unfold reduce, reduce_with, mbind, M_bind, bind. cbn. unfold copyfile. rewrite Hf.
    destruct (decide (infile = o)) as [->|_]; [done|].
    cbn. unfold connect. cbn. rewrite lookup_insert_eq. cbn.
    by rewrite <- !app_assoc.
  - intros infile' outfile' peptides' w0 Hok.
    destruct (reduce infile' outfile' 0 peptides' w0) as [r w'] eqn:Hrun.
    cbn in Hok. subst r.
    destruct (reduce_ok_inv _ _ _ _ _ _ Hrun) as (s' & BIN & _ & _ & Hcut).
    apply cut_inr_inv in Hcut. lia.
Qed.

Lemma reduce_zero_bins_witness :
  files ex_world1 !! "in.pqp" = Some (pqp_file ex_store1)
  ∧ "out.pqp" ≠ "in.pqp"
  ∧ reduce "in.pqp" (Some "out.pqp") 0 5 ex_world1 =
      (inl (ValueError "`bins` should be a positive integer."),
       {| files := <["out.pqp" := pqp_file ex_store1]> (files ex_world1);
          con := Some {| con_path := "out.pqp"; con_db := pqp_file ex_store1 |};
          trace := trace ex_world1
                   ++ [EvCopyfile "in.pqp" "out.pqp"; EvConnect "out.pqp";
                       EvReadSql] |})
  ∧ ∀ infile' outfile' peptides' w0,
      (reduce infile' outfile' 0 peptides' w0).1 ≠ inr ().
Proof.
  assert (H1 : files ex_world1 !! "in.pqp" = Some (pqp_file ex_store1))
    by (vm_compute; reflexivity).
  assert (H2 : "out.pqp" ≠ "in.pqp") by discriminate.
  split; [exact H1|]. split; [exact H2|].
  exact (reduce_zero_bins "in.pqp" "out.pqp" 5 ex_world1 ex_store1 H1 H2).
Defined.

(** C6, as stated, fails: with pyprophet missing, the [library] command
    runs to its end; [generate] is called, with the [--pi0_lambda] triple
    as the command line gave it, and the success message is printed. *)
Lemma library_without_pyprophet_counterexample :
  run_library ex_generate ModuleNotFoundError () (1 # 10, 1 # 2, 1 # 20)%Q
    (world0 ∅)
  = (inr (),
     {| files := ∅; con := None;
        trace := [EvGenerate true;
                  EvEcho "Info: Library successfully generated."] |}).
Proof. reflexivity. Qed.

(** C6, amended. When the import of pyprophet fails with
    [ModuleNotFoundError], [transform_pi0_lambda] is [None], the option has
    no callback, and the [library] command calls [generate] with the
    [--pi0_lambda] triple untransformed and then prints its message: an
    exception of [generate] is the only way the command fails, and when
    [generate] returns the command completes. *)
Theorem library_without_pyprophet {T options : Type}
    (generate : options → pi0_lambda_value T → M unit)
    (opts : options) (pi0_lambda : Q * Q * Q) (w : world) :
  transform_pi0_lambda (T := T) ModuleNotFoundError = inr None
  ∧ run_library generate ModuleNotFoundError opts pi0_lambda w
    = (generate opts (untransformed pi0_lambda) ;;
       echo "Info: Library successfully generated.") w
  ∧ (∀ e w',
       run_library generate ModuleNotFoundError opts pi0_lambda w = (inl e, w') ↔
       generate opts (untransformed pi0_lambda) w = (inl e, w'))
  ∧ (∀ w',
       generate opts (untransformed pi0_lambda) w = (inr (), w') →
       run_library generate ModuleNotFoundError opts pi0_lambda w
       = (inr (),
          {| files := files w'; con := con w';
             trace := trace w'
                      ++ [EvEcho "Info: Library successfully generated."] |})).
Proof.
  split; [reflexivity|]. split; [reflexivity|].
  unfold run_library, library, mbind, M_bind, bind. cbn.
  split.
  - intros e w'.
    destruct (generate opts (untransformed pi0_lambda) w) as [[e0|[]] w0];
      cbn; split; intros H; (discriminate H || exact H).
  - intros w' ->. reflexivity.
Qed.

Lemma library_without_pyprophet_witness :
  ex_generate () (untransformed (1 # 10, 1 # 2, 1 # 20)%Q) (world0 ∅)
  = (inr (), {| files := ∅; con := None; trace := [EvGenerate true] |})
  ∧ run_library ex_generate ModuleNotFoundError () (1 # 10, 1 # 2, 1 # 20)%Q
      (world0 ∅)
    = (inr (),
       {| files := ∅; con := None;
          trace := [EvGenerate true]
                   ++ [EvEcho "Info: Library successfully generated."] |}).
Proof.
  assert (H1 : ex_generate () (untransformed (1 # 10, 1 # 2, 1 # 20)%Q) (world0 ∅)
               = (inr (), {| files := ∅; con := None;
                             trace := [EvGenerate true] |}))
    by reflexivity.
  split; [exact H1|].
  exact (proj2 (proj2 (proj2
           (library_without_pyprophet ex_generate ()
              (1 # 10, 1 # 2, 1 # 20)%Q (world0 ∅)))) _ H1).
Defined.






(** C9. No decoy is left: the anchor candidates are the precursors with
    [DECOY = 0], the anchors are taken among the candidates, and the
    precursors of the reduced store are exactly the precursors selected as
    anchors, so every other precursor, every decoy included, is deleted.
    [PRECURSOR.ID] is the primary key of its table. *)
Theorem reduce_no_decoys infile outfile bins peptides w w' s :
  files w !! infile = Some (pqp_file s) →
  precursor_key s →
  reduce infile outfile bins peptides w = (inr (), w') →
  ∃ s' BIN,
    files w' !! target infile outfile = Some (pqp_file s') ∧
    pd.cut (candidate_rts s) bins = inr BIN ∧
    (∀ a, a ∈ candidates s ↔
          ∃ p, p ∈ PRECURSOR s ∧ Precursor.DECOY p = 0%Z ∧ a = anchor_row p) ∧
    (∀ a, a ∈ anchors BIN peptides s → a ∈ candidates s) ∧
    (∀ p, p ∈ PRECURSOR s' ↔
          p ∈ PRECURSOR s ∧ anchor_row p ∈ anchors BIN peptides s) ∧
    (∀ p, p ∈ PRECURSOR s' → Precursor.DECOY p = 0%Z) ∧
    (∀ p, p ∈ PRECURSOR s → Precursor.DECOY p ≠ 0%Z → p ∉ PRECURSOR s').
Proof.
  intros Hf Hkey Hrun.
  destruct (reduce_ok_store _ _ _ _ _ _ _ Hf Hrun) as (BIN & Hcut & Hout & _).
  eexists _, BIN. split; [exact Hout|]. split; [exact Hcut|].
  pose proof (kept_sublist bins peptides s) as Hsub.
  rewrite (reduce_precursors bins) by done.
  rewrite (anchors_eq bins) by done.
  split_and!.
  - intros a. rewrite candidates_eq, list_elem_of_fmap.
    split; intros (p & Hp1 & Hp2).
    + apply list_elem_of_filter in Hp2 as [? ?]. eauto.
    + destruct Hp2 as [? ->]. exists p. split; [done|].
      by apply list_elem_of_filter.
  - intros a (p & -> & Hp)%list_elem_of_fmap. rewrite candidates_eq.
    apply list_elem_of_fmap_2. by eapply elem_of_sublist.
  - intros p. split.
    + intros Hp. split; [|by apply list_elem_of_fmap_2].
      eapply elem_of_sublist in Hp; [|exact Hsub].
      by apply list_elem_of_filter in Hp as [_ ?].
    + intros [Hp (q & Heq & Hq)%list_elem_of_fmap].
      assert (q ∈ PRECURSOR s) as Hq'.
      { eapply elem_of_sublist in Hq; [|exact Hsub].
        by apply list_elem_of_filter in Hq as [_ ?]. }
      assert (p = q) as ->; [|done].
      apply (NoDup_fmap_eq Precursor.ID (PRECURSOR s)); try done.
      by injection Heq.
  - intros p Hp. eapply elem_of_sublist in Hp; [|exact Hsub].
    by apply list_elem_of_filter in Hp as [? _].
  - intros p _ Hdecoy Hp. eapply elem_of_sublist in Hp; [|exact Hsub].
    by apply list_elem_of_filter in Hp as [? _].
Qed.

Lemma reduce_no_decoys_witness :
  files ex_world1 !! "in.pqp" = Some (pqp_file ex_store1)
  ∧ precursor_key ex_store1
  ∧ reduce "in.pqp" (Some "out.pqp") 2 2 ex_world1 = (inr (), ex_world1_reduced)
  ∧ ∃ s' BIN,
      files ex_world1_reduced !! "out.pqp" = Some (pqp_file s') ∧
      pd.cut (candidate_rts ex_store1) 2 = inr BIN ∧
      (∀ a, a ∈ candidates ex_store1 ↔
            ∃ p, p ∈ PRECURSOR ex_store1 ∧ Precursor.DECOY p = 0%Z
                 ∧ a = anchor_row p) ∧
      (∀ a, a ∈ anchors BIN 2 ex_store1 → a ∈ candidates ex_store1) ∧
      (∀ p, p ∈ PRECURSOR s' ↔
            p ∈ PRECURSOR ex_store1 ∧ anchor_row p ∈ anchors BIN 2 ex_store1) ∧
      (∀ p, p ∈ PRECURSOR s' → Precursor.DECOY p = 0%Z) ∧
      (∀ p, p ∈ PRECURSOR ex_store1 → Precursor.DECOY p ≠ 0%Z →
            p ∉ PRECURSOR s').
Proof.
  assert (H1 : files ex_world1 !! "in.pqp" = Some (pqp_file ex_store1))
    by (vm_compute; reflexivity).
  assert (H2 : precursor_key ex_store1) by compute_done.
  assert (H3 : reduce "in.pqp" (Some "out.pqp") 2 2 ex_world1
               = (inr (), ex_world1_reduced)) by (vm_compute; reflexivity).
  split_and!; [exact H1|exact H2|exact H3|].
  exact (reduce_no_decoys "in.pqp" (Some "out.pqp") 2 2
           ex_world1 ex_world1_reduced ex_store1 H1 H2 H3).
Defined.

(** C10. Called with an output path, as the command line requires,
    [reduce] leaves the input file as it is, whatever the outcome: the only
    file it writes is the one at the output path.  When the output path is
    the input path, the copy raises an error and the world is left as it
    was, no connection opened. *)
Theorem reduce_input_unchanged infile o bins peptides w :
  files (reduce infile (Some o) bins peptides w).2 !! infile = files w !! infile
  ∧ (∀ p, p ≠ o →
          files (reduce infile (Some o) bins peptides w).2 !! p = files w !! p)
  ∧ ∃ e, reduce infile (Some infile) bins peptides w = (inl e, w).
Proof.
  split_and!.
  - destruct (decide (infile = o)) as [<-|Hne].
    + unfold reduce, reduce_with, mbind, M_bind, bind. cbn. unfold copyfile.
      destruct (files w !! infile) eqn:Hf; cbn; [|done].
      destruct (decide (infile = infile)); cbn; done.
    + by apply reduce_writes_outfile.
  - intros p Hp. by apply reduce_writes_outfile.
  - unfold reduce, reduce_with, mbind, M_bind, bind. cbn. unfold copyfile.
    destruct (files w !! infile); [|by eexists].
    destruct (decide (infile = infile)); [by eexists|done].
Qed.

Lemma reduce_input_unchanged_witness :
  files (reduce "in.pqp" (Some "out.pqp") 2 2 ex_world1).2 !! "in.pqp"
  = Some (pqp_file ex_store1)
  ∧ reduce "in.pqp" (Some "in.pqp") 2 2 ex_world1 = (inl SameFileError, ex_world1).
Proof.
  pose proof (reduce_input_unchanged "in.pqp" "out.pqp" 2 2 ex_world1)
    as (Hin & _ & _).
  pose proof (reduce_input_unchanged "in.pqp" "in.pqp" 2 2 ex_world1)
    as (_ & _ & e & Herr).
  split; [exact Hin|].
  rewrite Herr. f_equal.
  assert ((reduce "in.pqp" (Some "in.pqp") 2 2 ex_world1).1 = inl SameFileError)
    as Hfst by (vm_compute; reflexivity).
  rewrite Herr in Hfst. exact Hfst.
Defined.

(** * Further properties of [reduce] *)

Lemma filter_sublist_impl {A : Type} (P Q : A → Prop)
    `{!∀ x, Decision (P x), !∀ x, Decision (Q x)} (l : list A) :
  (∀ x, x ∈ l → P x → Q x) → filter P l `sublist_of` filter Q l.
Proof.
  induction l as [|x l IH]; intros Himpl; [done|].
  assert (filter P l `sublist_of` filter Q l) as Hrec.
  { apply IH. intros y Hy. apply Himpl. by right. }
  rewrite !filter_cons.
  destruct (decide (P x)) as [HP|HP], (decide (Q x)) as [HQ|HQ].
  - by apply sublist_skip.
  - destruct HQ. apply Himpl; [by left|done].
  - by apply sublist_cons.
  - done.
Qed.

(** X1. [reduce] only deletes rows: each table of the reduced store holds
    rows of the table it comes from, in the order they had there; no row is
    added, changed or moved. *)
Theorem reduce_only_deletes infile outfile bins peptides w w' s :
  files w !! infile = Some (pqp_file s) →
  reduce infile outfile bins peptides w = (inr (), w') →
  ∃ s',
    files w' !! target infile outfile = Some (pqp_file s') ∧
    PROTEIN s' `sublist_of` PROTEIN s ∧
    PEPTIDE s' `sublist_of` PEPTIDE s ∧
    PEPTIDE_PROTEIN_MAPPING s' `sublist_of` PEPTIDE_PROTEIN_MAPPING s ∧
    PRECURSOR s' `sublist_of` PRECURSOR s ∧
    PRECURSOR_PEPTIDE_MAPPING s' `sublist_of` PRECURSOR_PEPTIDE_MAPPING s ∧
    TRANSITION s' `sublist_of` TRANSITION s ∧
    TRANSITION_PRECURSOR_MAPPING s' `sublist_of` TRANSITION_PRECURSOR_MAPPING s.
Proof.
  intros Hf Hrun.
  destruct (reduce_ok_store _ _ _ _ _ _ _ Hf Hrun) as (BIN & _ & Hout & _).
  eexists. split; [exact Hout|]. rewrite cascade_eq. cbn.
  split_and!; apply sublist_filter.
Qed.

Lemma reduce_only_deletes_witness :
  files ex_world1 !! "in.pqp" = Some (pqp_file ex_store1)
  ∧ reduce "in.pqp" (Some "out.pqp") 2 2 ex_world1 = (inr (), ex_world1_reduced)
  ∧ ∃ s',
      files ex_world1_reduced !! "out.pqp" = Some (pqp_file s') ∧
      PROTEIN s' `sublist_of` PROTEIN ex_store1 ∧
      PEPTIDE s' `sublist_of` PEPTIDE ex_store1 ∧
      PEPTIDE_PROTEIN_MAPPING s' `sublist_of` PEPTIDE_PROTEIN_MAPPING ex_store1 ∧
      PRECURSOR s' `sublist_of` PRECURSOR ex_store1 ∧
      PRECURSOR_PEPTIDE_MAPPING s'
        `sublist_of` PRECURSOR_PEPTIDE_MAPPING ex_store1 ∧
      TRANSITION s' `sublist_of` TRANSITION ex_store1 ∧
      TRANSITION_PRECURSOR_MAPPING s'
        `sublist_of` TRANSITION_PRECURSOR_MAPPING ex_store1.
Proof.
  assert (H1 : files ex_world1 !! "in.pqp" = Some (pqp_file ex_store1))
    by (vm_compute; reflexivity).
  assert (H2 : reduce "in.pqp" (Some "out.pqp") 2 2 ex_world1
               = (inr (), ex_world1_reduced)) by (vm_compute; reflexivity).
  split_and!; [exact H1|exact H2|].
  exact (reduce_only_deletes "in.pqp" (Some "out.pqp") 2 2
           ex_world1 ex_world1_reduced ex_store1 H1 H2).
Defined.

(** X2. The reduced store has no orphan, whatever the store it comes from:
    every mapping row left to a precursor names an anchor, every transition
    left is named by a transition mapping row left, every peptide left and
    every protein mapping row left by a peptide mapping row left, and every
    protein left by a protein mapping row left.  Nothing is assumed of the
    input: a transition, peptide or protein that no row named is deleted
    too. *)
Theorem reduce_no_orphans infile outfile bins peptides w w' s :
  files w !! infile = Some (pqp_file s) →
  reduce infile outfile bins peptides w = (inr (), w') →
  ∃ s' BIN,
    files w' !! target infile outfile = Some (pqp_file s') ∧
    pd.cut (candidate_rts s) bins = inr BIN ∧
    let anchor_ids := Anchor.PRECURSOR_ID <$> anchors BIN peptides s in
    Forall (λ r, Precursor.ID r ∈ anchor_ids) (PRECURSOR s') ∧
    Forall (λ r, TransitionPrecursor.PRECURSOR_ID r ∈ anchor_ids)
           (TRANSITION_PRECURSOR_MAPPING s') ∧
    Forall (λ r, PrecursorPeptide.PRECURSOR_ID r ∈ anchor_ids)
           (PRECURSOR_PEPTIDE_MAPPING s') ∧
    Forall (λ r, Transition.ID r ∈ TransitionPrecursor.TRANSITION_ID
                                   <$> TRANSITION_PRECURSOR_MAPPING s')
           (TRANSITION s') ∧
    Forall (λ r, Peptide.ID r ∈ PrecursorPeptide.PEPTIDE_ID
                                <$> PRECURSOR_PEPTIDE_MAPPING s')
           (PEPTIDE s') ∧
    Forall (λ r, PeptideProtein.PEPTIDE_ID r ∈ PrecursorPeptide.PEPTIDE_ID
                                               <$> PRECURSOR_PEPTIDE_MAPPING s')
           (PEPTIDE_PROTEIN_MAPPING s') ∧
    Forall (λ r, Protein.ID r ∈ PeptideProtein.PROTEIN_ID
                                <$> PEPTIDE_PROTEIN_MAPPING s')
           (PROTEIN s').
Proof.
  intros Hf Hrun.
  destruct (reduce_ok_store _ _ _ _ _ _ _ Hf Hrun) as (BIN & Hcut & Hout & _).
  eexists _, BIN. split; [exact Hout|]. split; [exact Hcut|].
  rewrite cascade_eq. cbn.
  split_and!; apply Forall_forall; by intros r [? _]%list_elem_of_filter.
Qed.

Lemma reduce_no_orphans_witness :
  files ex_world1 !! "in.pqp" = Some (pqp_file ex_store1)
  ∧ reduce "in.pqp" (Some "out.pqp") 2 2 ex_world1 = (inr (), ex_world1_reduced)
  ∧ ∃ s' BIN,
      files ex_world1_reduced !! "out.pqp" = Some (pqp_file s') ∧
      pd.cut (candidate_rts ex_store1) 2 = inr BIN ∧
      let anchor_ids := Anchor.PRECURSOR_ID <$> anchors BIN 2 ex_store1 in
      Forall (λ r, Precursor.ID r ∈ anchor_ids) (PRECURSOR s') ∧
      Forall (λ r, TransitionPrecursor.PRECURSOR_ID r ∈ anchor_ids)
             (TRANSITION_PRECURSOR_MAPPING s') ∧
      Forall (λ r, PrecursorPeptide.PRECURSOR_ID r ∈ anchor_ids)
             (PRECURSOR_PEPTIDE_MAPPING s') ∧
      Forall (λ r, Transition.ID r ∈ TransitionPrecursor.TRANSITION_ID
                                     <$> TRANSITION_PRECURSOR_MAPPING s')
             (TRANSITION s') ∧
      Forall (λ r, Peptide.ID r ∈ PrecursorPeptide.PEPTIDE_ID
                                  <$> PRECURSOR_PEPTIDE_MAPPING s')
             (PEPTIDE s') ∧
      Forall (λ r, PeptideProtein.PEPTIDE_ID r ∈ PrecursorPeptide.PEPTIDE_ID
                                                 <$> PRECURSOR_PEPTIDE_MAPPING s')
             (PEPTIDE_PROTEIN_MAPPING s') ∧
      Forall (λ r, Protein.ID r ∈ PeptideProtein.PROTEIN_ID
                                  <$> PEPTIDE_PROTEIN_MAPPING s')
             (PROTEIN s').
Proof.
  assert (H1 : files ex_world1 !! "in.pqp" = Some (pqp_file ex_store1))
    by (vm_compute; reflexivity).
  assert (H2 : reduce "in.pqp" (Some "out.pqp") 2 2 ex_world1
               = (inr (), ex_world1_reduced)) by (vm_compute; reflexivity).
  split_and!; [exact H1|exact H2|].
  exact (reduce_no_orphans "in.pqp" (Some "out.pqp") 2 2
           ex_world1 ex_world1_reduced ex_store1 H1 H2).
Defined.

(** X3. Nothing that belongs to an anchor is deleted: a mapping row of an
    anchor precursor stays, and so do the transition and the peptide it
    names, the protein mapping rows of that peptide and the proteins they
    name. *)
Theorem reduce_keeps_anchor_rows infile outfile bins peptides w w' s :
  files w !! infile = Some (pqp_file s) →
  reduce infile outfile bins peptides w = (inr (), w') →
  ∃ s' BIN,
    files w' !! target infile outfile = Some (pqp_file s') ∧
    pd.cut (candidate_rts s) bins = inr BIN ∧
    let anchor_ids := Anchor.PRECURSOR_ID <$> anchors BIN peptides s in
    (∀ p, p ∈ PRECURSOR s → Precursor.ID p ∈ anchor_ids → p ∈ PRECURSOR s') ∧
    (∀ m, m ∈ TRANSITION_PRECURSOR_MAPPING s →
          TransitionPrecursor.PRECURSOR_ID m ∈ anchor_ids →
          m ∈ TRANSITION_PRECURSOR_MAPPING s' ∧
          ∀ t, t ∈ TRANSITION s →
               Transition.ID t = TransitionPrecursor.TRANSITION_ID m →
               t ∈ TRANSITION s') ∧
    (∀ m, m ∈ PRECURSOR_PEPTIDE_MAPPING s →
          PrecursorPeptide.PRECURSOR_ID m ∈ anchor_ids →
          m ∈ PRECURSOR_PEPTIDE_MAPPING s' ∧
          (∀ q, q ∈ PEPTIDE s →
                Peptide.ID q = PrecursorPeptide.PEPTIDE_ID m →
                q ∈ PEPTIDE s') ∧
          ∀ n, n ∈ PEPTIDE_PROTEIN_MAPPING s →
               PeptideProtein.PEPTIDE_ID n = PrecursorPeptide.PEPTIDE_ID m →
               n ∈ PEPTIDE_PROTEIN_MAPPING s' ∧
               ∀ x, x ∈ PROTEIN s →
                    Protein.ID x = PeptideProtein.PROTEIN_ID n →
                    x ∈ PROTEIN s').
Proof.
  intros Hf Hrun.
  destruct (reduce_ok_store _ _ _ _ _ _ _ Hf Hrun) as (BIN & Hcut & Hout & _).
  eexists _, BIN. split; [exact Hout|]. split; [exact Hcut|].
  rewrite cascade_eq. cbn. split_and!.
  - intros p Hp Hid. by apply list_elem_of_filter.
  - intros m Hm Hid.
    assert (m ∈ filter (λ r, TransitionPrecursor.PRECURSOR_ID r
                              ∈ Anchor.PRECURSOR_ID <$> anchors BIN peptides s)
                       (TRANSITION_PRECURSOR_MAPPING s)) as Hm'
      by by apply list_elem_of_filter.
    split; [done|]. intros t Ht Heq. apply list_elem_of_filter.
    split; [|done]. rewrite Heq. by apply list_elem_of_fmap_2.
  - intros m Hm Hid.
    assert (m ∈ filter (λ r, PrecursorPeptide.PRECURSOR_ID r
                              ∈ Anchor.PRECURSOR_ID <$> anchors BIN peptides s)
                       (PRECURSOR_PEPTIDE_MAPPING s)) as Hm'
      by by apply list_elem_of_filter.
    split; [done|]. split.
    + intros q Hq Heq. apply list_elem_of_filter.
      split; [|done]. rewrite Heq. by apply list_elem_of_fmap_2.
    + intros n Hn Heq.
      assert (n ∈ filter
                (λ r, PeptideProtein.PEPTIDE_ID r
                      ∈ PrecursorPeptide.PEPTIDE_ID
                        <$> filter (λ r, PrecursorPeptide.PRECURSOR_ID r
                                         ∈ Anchor.PRECURSOR_ID
                                           <$> anchors BIN peptides s)
                                   (PRECURSOR_PEPTIDE_MAPPING s))
                (PEPTIDE_PROTEIN_MAPPING s)) as Hn'.
      { apply list_elem_of_filter. split; [|done].
        rewrite Heq. by apply list_elem_of_fmap_2. }
      split; [done|]. intros x Hx Hxeq. apply list_elem_of_filter.
      split; [|done]. rewrite Hxeq. by apply list_elem_of_fmap_2.
Qed.

Lemma reduce_keeps_anchor_rows_witness :
  files ex_world1 !! "in.pqp" = Some (pqp_file ex_store1)
  ∧ reduce "in.pqp" (Some "out.pqp") 2 2 ex_world1 = (inr (), ex_world1_reduced)
  ∧
  ∃ s' BIN,
    files ex_world1_reduced !! "out.pqp" = Some (pqp_file s') ∧
    pd.cut (candidate_rts ex_store1) 2 = inr BIN ∧
    let anchor_ids := Anchor.PRECURSOR_ID <$> anchors BIN 2 ex_store1 in
    (∀ p, p ∈ PRECURSOR ex_store1 → Precursor.ID p ∈ anchor_ids → p ∈ PRECURSOR s') ∧
    (∀ m, m ∈ TRANSITION_PRECURSOR_MAPPING ex_store1 →
          TransitionPrecursor.PRECURSOR_ID m ∈ anchor_ids →
          m ∈ TRANSITION_PRECURSOR_MAPPING s' ∧
          ∀ t, t ∈ TRANSITION ex_store1 →
               Transition.ID t = TransitionPrecursor.TRANSITION_ID m →
               t ∈ TRANSITION s') ∧
    (∀ m, m ∈ PRECURSOR_PEPTIDE_MAPPING ex_store1 →
          PrecursorPeptide.PRECURSOR_ID m ∈ anchor_ids →
          m ∈ PRECURSOR_PEPTIDE_MAPPING s' ∧
          (∀ q, q ∈ PEPTIDE ex_store1 →
                Peptide.ID q = PrecursorPeptide.PEPTIDE_ID m →
                q ∈ PEPTIDE s') ∧
          ∀ n, n ∈ PEPTIDE_PROTEIN_MAPPING ex_store1 →
               PeptideProtein.PEPTIDE_ID n = PrecursorPeptide.PEPTIDE_ID m →
               n ∈ PEPTIDE_PROTEIN_MAPPING s' ∧
               ∀ x, x ∈ PROTEIN ex_store1 →
                    Protein.ID x = PeptideProtein.PROTEIN_ID n →
                    x ∈ PROTEIN s').
Proof.
  assert (H1 : files ex_world1 !! "in.pqp" = Some (pqp_file ex_store1))
    by (vm_compute; reflexivity).
  assert (H2 : reduce "in.pqp" (Some "out.pqp") 2 2 ex_world1
               = (inr (), ex_world1_reduced)) by (vm_compute; reflexivity).
  split_and!; [exact H1|exact H2|].
  exact (reduce_keeps_anchor_rows "in.pqp" (Some "out.pqp") 2 2
           ex_world1 ex_world1_reduced ex_store1 H1 H2).
Defined.

(** ** The two ends of [--peptides] *)

(** X4. With [--peptides 0] every row goes: a run of [reduce] that
    completes leaves the seven tables empty, whatever labels [pd.cut]
    gave. *)
Theorem reduce_zero_peptides cut infile outfile bins w w' s :
  files w !! infile = Some (pqp_file s) →
  reduce_with cut infile outfile bins 0 w = (inr (), w') →
  files w' !! target infile outfile = Some (pqp_file empty_store).
Proof.
  intros Hf Hrun.
  destruct (reduce_with_ok _ _ _ _ _ _ _ Hrun)
    as (s0 & BIN & Hf0 & _ & Hcut & ->).
  cbn [files]. rewrite lookup_insert_eq. do 2 f_equal.
  unfold anchors, anchors_of, pd.groupby_head. rewrite head_rows_zero.
  apply cascade_nil.
Qed.

Lemma reduce_zero_peptides_witness :
  files ex_world1 !! "in.pqp" = Some (pqp_file ex_store1)
  ∧ reduce_float64 ex_repr "in.pqp" (Some "out.pqp") 2 0 ex_world1
    = (inr (), (reduce_float64 ex_repr "in.pqp" (Some "out.pqp") 2 0 ex_world1).2)
  ∧ files (reduce_float64 ex_repr "in.pqp" (Some "out.pqp") 2 0 ex_world1).2
      !! "out.pqp" = Some (pqp_file empty_store).
Proof.
  assert (H1 : files ex_world1 !! "in.pqp" = Some (pqp_file ex_store1))
    by (vm_compute; reflexivity).
  assert (H2 : reduce_float64 ex_repr "in.pqp" (Some "out.pqp") 2 0 ex_world1
               = (inr (), (reduce_float64 ex_repr "in.pqp" (Some "out.pqp") 2 0
                             ex_world1).2))
    by (vm_compute; reflexivity).
  refine (conj H1 (conj H2 _)).
  exact (reduce_zero_peptides (pd.cut_with tile.nbins_to_bins ex_repr)
           "in.pqp" (Some "out.pqp") 2 ex_world1 _ ex_store1 H1 H2).
Defined.

(** X5. With [--peptides] at least the number of non-decoy precursors,
    [head] drops no row of any bin: a run of [reduce] that completes leaves
    the non-decoy precursors to which [pd.cut] gave a bin, in stored order,
    and deletes the decoys and the precursors whose label is NaN.
    [PRECURSOR.ID] is unique. *)
Theorem reduce_many_peptides cut infile outfile bins peptides w w' s BIN :
  files w !! infile = Some (pqp_file s) →
  precursor_key s →
  cut (candidate_rts s) bins = inr BIN →
  (Z.of_nat (length (candidates s)) ≤ peptides)%Z →
  reduce_with cut infile outfile bins peptides w = (inr (), w') →
  ∃ s',
    files w' !! target infile outfile = Some (pqp_file s') ∧
    PRECURSOR s' =
      (filter (λ r : Precursor.t * option Z, is_Some r.2) (binned s BIN)).*1.
Proof.
  intros Hf Hkey Hcut Hlen Hrun.
  destruct (reduce_with_ok_store _ _ _ _ _ _ _ _ _ Hf Hcut Hrun) as [Hout _].
  eexists. split; [exact Hout|].
  rewrite reduce_with_precursors by done. f_equal.
  apply groupby_head_large.
  rewrite candidates_eq, length_fmap in Hlen.
  pose proof (sublist_length _ _ (zip_fst_sublist
    (filter (λ r, Precursor.DECOY r = 0%Z) (PRECURSOR s)) BIN)) as Hzip.
  rewrite length_fmap in Hzip. unfold binned. lia.
Qed.

Lemma reduce_many_peptides_witness :
  files ex_world1 !! "in.pqp" = Some (pqp_file ex_store1)
  ∧ precursor_key ex_store1
  ∧ pd.cut_with tile.nbins_to_bins ex_repr (candidate_rts ex_store1) 2
    = inr ex_BIN1
  ∧ (Z.of_nat (length (candidates ex_store1)) ≤ 5)%Z
  ∧ reduce_float64 ex_repr "in.pqp" (Some "out.pqp") 2 5 ex_world1
    = (inr (), (reduce_float64 ex_repr "in.pqp" (Some "out.pqp") 2 5 ex_world1).2)
  ∧ ∃ s',
      files (reduce_float64 ex_repr "in.pqp" (Some "out.pqp") 2 5 ex_world1).2
        !! "out.pqp" = Some (pqp_file s') ∧
      PRECURSOR s' =
        (filter (λ r : Precursor.t * option Z, is_Some r.2)
           (binned ex_store1 ex_BIN1)).*1.
Proof.
  assert (H1 : files ex_world1 !! "in.pqp" = Some (pqp_file ex_store1))
    by (vm_compute; reflexivity).
  assert (H2 : precursor_key ex_store1) by compute_done.
  assert (H3 : pd.cut_with tile.nbins_to_bins ex_repr (candidate_rts ex_store1) 2
               = inr ex_BIN1) by (vm_compute; reflexivity).
  assert (H4 : (Z.of_nat (length (candidates ex_store1)) ≤ 5)%Z)
    by (vm_compute; discriminate).
  assert (H5 : reduce_float64 ex_repr "in.pqp" (Some "out.pqp") 2 5 ex_world1
               = (inr (), (reduce_float64 ex_repr "in.pqp" (Some "out.pqp") 2 5
                             ex_world1).2))
    by (vm_compute; reflexivity).
  refine (conj H1 (conj H2 (conj H3 (conj H4 (conj H5 _))))).
  exact (reduce_many_peptides (pd.cut_with tile.nbins_to_bins ex_repr)
           "in.pqp" (Some "out.pqp") 2 5 ex_world1 _ ex_store1 ex_BIN1
           H1 H2 H3 H4 H5).
Defined.

(** ** A larger [--peptides] keeps more *)

Lemma head_rows_mono {A : Type} (key : A → option Z) n n' df seen rows :
  (0 ≤ n ≤ n')%Z →
  pd.head_rows key n df seen rows `sublist_of` pd.head_rows key n' df seen rows.
Proof.
  intros Hn. revert seen. induction rows as [|r rest IH]; intros seen; [done|].
  cbn [pd.head_rows]. specialize (IH (r :: seen)).
  destruct (key r) as [b|]; [|done].
  assert ((0 <=? n)%Z = true) as -> by lia.
  assert ((0 <=? n')%Z = true) as -> by lia.
  destruct (Z.ltb_spec (Z.of_nat (length (filter (λ r', key r' = Some b) seen))) n),
           (Z.ltb_spec (Z.of_nat (length (filter (λ r', key r' = Some b) seen))) n');
    cbn [app]; try lia.
  - by apply sublist_skip.
  - by apply sublist_cons.
  - done.
Qed.

Lemma groupby_head_mono {A : Type} (key : A → option Z) n n' df :
  (0 ≤ n ≤ n')%Z →
  pd.groupby_head key n df `sublist_of` pd.groupby_head key n' df.
Proof. apply head_rows_mono. Qed.

Lemma fmap_filter_incl {A B : Type} (f : A → B) (P Q : A → Prop)
    `{!∀ x, Decision (P x)} `{!∀ x, Decision (Q x)} (l : list A) y :
  (∀ x, x ∈ l → P x → Q x) → y ∈ f <$> filter P l → y ∈ f <$> filter Q l.
Proof.
  intros Himpl (x & -> & [HP Hx]%list_elem_of_filter)%list_elem_of_fmap.
  apply list_elem_of_fmap_2, list_elem_of_filter. split; [by apply Himpl|done].
Qed.

(** The rows the cascade leaves grow with the rows of [temp_anchors]. *)
Lemma cascade_mono a1 a2 s :
  (∀ i, i ∈ Anchor.PRECURSOR_ID <$> a1 → i ∈ Anchor.PRECURSOR_ID <$> a2) →
  PROTEIN (cascade a1 s) `sublist_of` PROTEIN (cascade a2 s) ∧
  PEPTIDE (cascade a1 s) `sublist_of` PEPTIDE (cascade a2 s) ∧
  PEPTIDE_PROTEIN_MAPPING (cascade a1 s)
    `sublist_of` PEPTIDE_PROTEIN_MAPPING (cascade a2 s) ∧
  PRECURSOR (cascade a1 s) `sublist_of` PRECURSOR (cascade a2 s) ∧
  PRECURSOR_PEPTIDE_MAPPING (cascade a1 s)
    `sublist_of` PRECURSOR_PEPTIDE_MAPPING (cascade a2 s) ∧
  TRANSITION (cascade a1 s) `sublist_of` TRANSITION (cascade a2 s) ∧
  TRANSITION_PRECURSOR_MAPPING (cascade a1 s)
    `sublist_of` TRANSITION_PRECURSOR_MAPPING (cascade a2 s).
Proof.
  intros Hincl. rewrite !cascade_eq. cbn.
  assert (∀ y,
    y ∈ PrecursorPeptide.PEPTIDE_ID <$>
          filter (λ r, PrecursorPeptide.PRECURSOR_ID r ∈ Anchor.PRECURSOR_ID <$> a1)
            (PRECURSOR_PEPTIDE_MAPPING s) →
    y ∈ PrecursorPeptide.PEPTIDE_ID <$>
          filter (λ r, PrecursorPeptide.PRECURSOR_ID r ∈ Anchor.PRECURSOR_ID <$> a2)
            (PRECURSOR_PEPTIDE_MAPPING s)) as Hpep.
  { intros y. apply fmap_filter_incl. intros x _. apply Hincl. }
  split_and!; apply filter_sublist_impl; intros x Hx; try apply Hincl; try apply Hpep.
  - apply fmap_filter_incl. intros y _. apply Hpep.
  - apply fmap_filter_incl. intros y _. apply Hincl.
Qed.

(** X7. Raising [--peptides] never loses a row: when a run with [peptides]
    completes, so does the run with a larger count on the same input, and
    every table of the first output is a sublist of the second's. *)
Theorem reduce_monotone_in_peptides infile outfile bins peptides peptides' w w1 s :
  files w !! infile = Some (pqp_file s) →
  (0 ≤ peptides ≤ peptides')%Z →
  reduce infile outfile bins peptides w = (inr (), w1) →
  ∃ w2 s1 s2,
    reduce infile outfile bins peptides' w = (inr (), w2) ∧
    files w1 !! target infile outfile = Some (pqp_file s1) ∧
    files w2 !! target infile outfile = Some (pqp_file s2) ∧
    PROTEIN s1 `sublist_of` PROTEIN s2 ∧
    PEPTIDE s1 `sublist_of` PEPTIDE s2 ∧
    PEPTIDE_PROTEIN_MAPPING s1 `sublist_of` PEPTIDE_PROTEIN_MAPPING s2 ∧
    PRECURSOR s1 `sublist_of` PRECURSOR s2 ∧
    PRECURSOR_PEPTIDE_MAPPING s1 `sublist_of` PRECURSOR_PEPTIDE_MAPPING s2 ∧
    TRANSITION s1 `sublist_of` TRANSITION s2 ∧
    TRANSITION_PRECURSOR_MAPPING s1 `sublist_of` TRANSITION_PRECURSOR_MAPPING s2.
Proof.
  intros Hf Hpep Hrun.
  destruct (reduce_ok _ _ _ _ _ _ Hrun) as (s0 & BIN & Hf0 & Ho & Hcut & ->).
  rewrite Hf in Hf0. injection Hf0 as <-.
  eexists _, _, _. split; [by apply (reduce_run _ _ _ peptides' _ s BIN)|].
  cbn [files]. rewrite !lookup_insert_eq. split; [done|]. split; [done|].
  apply cascade_mono. intros i.
  rewrite !(anchors_eq_candidates bins) by done.
  intros Hi. eapply elem_of_sublist; [exact Hi|].
  apply fmap_sublist, groupby_head_mono, Hpep.
Qed.

Lemma reduce_monotone_in_peptides_witness :
  files ex_world1 !! "in.pqp" = Some (pqp_file ex_store1)
  ∧ (0 ≤ 2 ≤ 3)%Z
  ∧ reduce "in.pqp" (Some "out.pqp") 2 2 ex_world1 = (inr (), ex_world1_reduced)
  ∧ ∃ w2 s1 s2,
      reduce "in.pqp" (Some "out.pqp") 2 3 ex_world1 = (inr (), w2) ∧
      files ex_world1_reduced !! "out.pqp" = Some (pqp_file s1) ∧
      files w2 !! "out.pqp" = Some (pqp_file s2) ∧
      PROTEIN s1 `sublist_of` PROTEIN s2 ∧
      PEPTIDE s1 `sublist_of` PEPTIDE s2 ∧
      PEPTIDE_PROTEIN_MAPPING s1 `sublist_of` PEPTIDE_PROTEIN_MAPPING s2 ∧
      PRECURSOR s1 `sublist_of` PRECURSOR s2 ∧
      PRECURSOR_PEPTIDE_MAPPING s1 `sublist_of` PRECURSOR_PEPTIDE_MAPPING s2 ∧
      TRANSITION s1 `sublist_of` TRANSITION s2 ∧
      TRANSITION_PRECURSOR_MAPPING s1 `sublist_of` TRANSITION_PRECURSOR_MAPPING s2.
Proof.
  assert (H1 : files ex_world1 !! "in.pqp" = Some (pqp_file ex_store1))
    by (vm_compute; reflexivity).
  assert (H2 : (0 ≤ 2 ≤ 3)%Z) by lia.
  assert (H3 : reduce "in.pqp" (Some "out.pqp") 2 2 ex_world1
               = (inr (), ex_world1_reduced)) by (vm_compute; reflexivity).
  refine (conj H1 (conj H2 (conj H3 _))).
  exact (reduce_monotone_in_peptides "in.pqp" (Some "out.pqp") 2 2 3
           ex_world1 ex_world1_reduced ex_store1 H1 H2 H3).
Defined.

(** ** A file with a [temp_anchors] table *)

(** X11. A file that still has a [temp_anchors] table cannot be reduced:
    once the candidates are read and binned, [to_sql] refuses to replace
    the table and the run ends with its [ValueError]; the file at the path
    it was to reduce holds what the input held. *)
Theorem reduce_stale_temp_anchors cut infile outfile bins peptides w s a BIN :
  files w !! infile = Some {| pqp := Some s; temp_anchors := Some a |} →
  (∀ o, outfile = Some o → o ≠ infile) →
  cut (candidate_rts s) bins = inr BIN →
  ∃ w',
    reduce_with cut infile outfile bins peptides w
    = (inl (ValueError "Table 'temp_anchors' already exists."), w') ∧
    files w' !! target infile outfile
    = Some {| pqp := Some s; temp_anchors := Some a |}.
Proof.
  intros Hf Ho Hcut.
  unfold candidate_rts, candidates in Hcut.
  unfold reduce_with, mbind, M_bind, bind.
  destruct outfile as [o|]; cbn.
  - unfold copyfile. rewrite Hf. destruct (decide (infile = o)) as [->|Hne'].
    { exfalso. by eapply Ho. }
    cbn. unfold connect. cbn. rewrite lookup_insert_eq. cbn.
    rewrite Hcut. cbn. eexists. split; [reflexivity|].
    cbn. by rewrite lookup_insert_eq.
  - unfold connect. rewrite Hf. cbn. rewrite Hcut. cbn.
    eexists. split; [reflexivity|]. done.
Qed.

Lemma reduce_stale_temp_anchors_witness :
  files ex_world_stale !! "in.pqp"
  = Some {| pqp := Some ex_store1; temp_anchors := Some [] |}
  ∧ pd.cut_with tile.nbins_to_bins ex_repr (candidate_rts ex_store1) 2
    = inr ex_BIN1
  ∧ ∃ w',
      reduce_float64 ex_repr "in.pqp" (Some "out.pqp") 2 2 ex_world_stale
      = (inl (ValueError "Table 'temp_anchors' already exists."), w') ∧
      files w' !! "out.pqp"
      = Some {| pqp := Some ex_store1; temp_anchors := Some [] |}.
Proof.
  assert (H1 : files ex_world_stale !! "in.pqp"
               = Some {| pqp := Some ex_store1; temp_anchors := Some [] |})
    by (vm_compute; reflexivity).
  assert (H2 : ∀ o, Some "out.pqp" = Some o → o ≠ "in.pqp")
    by (intros o [= <-]; discriminate).
  assert (H3 : pd.cut_with tile.nbins_to_bins ex_repr (candidate_rts ex_store1) 2
               = inr ex_BIN1) by (vm_compute; reflexivity).
  refine (conj H1 (conj H3 _)).
  exact (reduce_stale_temp_anchors (pd.cut_with tile.nbins_to_bins ex_repr)
           "in.pqp" (Some "out.pqp") 2 2 ex_world_stale ex_store1 [] ex_BIN1
           H1 H2 H3).
Defined.

(** * Further properties of [library] *)

(** X13. Whatever became of the import of pyprophet, a [library] command
    that completes has called [generate], and printed its message after
    [generate] returned: with the callback, [generate] was given the value
    the callback made of [--pi0_lambda], without it the triple itself. *)
Theorem library_completes_inv {T options : Type}
    (generate : options → pi0_lambda_value T → M unit)
    (outcome : import_outcome T) (opts : options) (pi0_lambda : Q * Q * Q)
    (w w' : world) :
  run_library generate outcome opts pi0_lambda w = (inr (), w') →
  ∃ value w1,
    generate opts value w = (inr (), w1) ∧
    files w' = files w1 ∧
    trace w' = trace w1 ++ [EvEcho "Info: Library successfully generated."] ∧
    match outcome with
    | imported f => ∃ v, f pi0_lambda = inr v ∧ value = transformed v
    | ModuleNotFoundError => value = untransformed pi0_lambda
    | import_raises _ => False
    end.
Proof.
  unfold run_library, library, mbind, M_bind, bind.
  destruct outcome as [f| |e]; cbn; [| |discriminate].
  - unfold process_value. destruct (f pi0_lambda) as [e|v] eqn:Hf; cbn;
      [discriminate|].
    destruct (generate opts (transformed v) w) as [[e|[]] w1] eqn:Hgen;
      [discriminate|].
    cbn. intros [= <-]. exists (transformed v), w1. cbn. eauto 10.
  - destruct (generate opts (untransformed pi0_lambda) w) as [[e|[]] w1] eqn:Hgen;
      [discriminate|].
    cbn. intros [= <-]. by exists (untransformed pi0_lambda), w1.
Qed.

Lemma library_completes_inv_witness :
  run_library ex_generate (imported ex_transform_pi0_lambda) ()
    (2 # 5, 0, 0)%Q (world0 ∅)
  = (inr (),
     (run_library ex_generate (imported ex_transform_pi0_lambda) ()
        (2 # 5, 0, 0)%Q (world0 ∅)).2)
  ∧ ∃ value w1,
      ex_generate () value (world0 ∅) = (inr (), w1) ∧
      files (run_library ex_generate (imported ex_transform_pi0_lambda) ()
               (2 # 5, 0, 0)%Q (world0 ∅)).2 = files w1 ∧
      trace (run_library ex_generate (imported ex_transform_pi0_lambda) ()
               (2 # 5, 0, 0)%Q (world0 ∅)).2
      = trace w1 ++ [EvEcho "Info: Library successfully generated."] ∧
      ∃ v, ex_transform_pi0_lambda (2 # 5, 0, 0)%Q = inr v ∧
           value = transformed v.
Proof.
  assert (H1 : run_library ex_generate (imported ex_transform_pi0_lambda) ()
                 (2 # 5, 0, 0)%Q (world0 ∅)
               = (inr (),
                  (run_library ex_generate (imported ex_transform_pi0_lambda) ()
                     (2 # 5, 0, 0)%Q (world0 ∅)).2))
    by (vm_compute; reflexivity).
  refine (conj H1 _).
  exact (library_completes_inv ex_generate (imported ex_transform_pi0_lambda)
           () (2 # 5, 0, 0)%Q (world0 ∅) _ H1).
Defined.

(** X14. When the import of pyprophet raises, or the callback refuses the
    value of [--pi0_lambda], the command ends with that exception and
    nothing has run: [generate] is not called and the world is as it was. *)
Theorem library_fails_before_generate {T options : Type}
    (generate : options → pi0_lambda_value T → M unit)
    (outcome : import_outcome T) (opts : options) (pi0_lambda : Q * Q * Q)
    (w : world) (e : exn) :
  outcome = import_raises e ∨
  (∃ f, outcome = imported f ∧ f pi0_lambda = inl e) →
  run_library generate outcome opts pi0_lambda w = (inl e, w).
Proof.
  unfold run_library, library, mbind, M_bind, bind.
  intros [->|(f & -> & Hf)]; cbn; [done|].
  unfold process_value. by rewrite Hf.
Qed.

Lemma library_fails_before_generate_witness :
  (imported ex_transform_pi0_lambda = import_raises
     (ClickException "Wrong input values for pi0_lambda, must be within [0,1).")
   ∨ ∃ f, imported ex_transform_pi0_lambda = imported f ∧
          f (2 # 5, 1, 0)%Q
          = inl (ClickException
                   "Wrong input values for pi0_lambda, must be within [0,1)."))
  ∧ run_library ex_generate (imported ex_transform_pi0_lambda) ()
      (2 # 5, 1, 0)%Q (world0 ∅)
    = (inl (ClickException
              "Wrong input values for pi0_lambda, must be within [0,1)."),
       world0 ∅).
Proof.
  assert (H1 : imported ex_transform_pi0_lambda = import_raises
                 (ClickException
                    "Wrong input values for pi0_lambda, must be within [0,1).")
               ∨ ∃ f, imported ex_transform_pi0_lambda = imported f ∧
                      f (2 # 5, 1, 0)%Q
                      = inl (ClickException
                          "Wrong input values for pi0_lambda, must be within [0,1)."))
    by (right; eexists; split; reflexivity).
  refine (conj H1 _).
  exact (library_fails_before_generate ex_generate _ () (2 # 5, 1, 0)%Q
           (world0 ∅) _ H1).
Defined.

(** * [transform_comma_string_to_list] *)

Lemma split_not_nil s sep : str.split s sep ≠ [].
Proof.
  destruct s as [|c s]; cbn; [done|].
  destruct (Ascii.eqb c sep); [done|]. by destruct (str.split s sep).
Qed.

Lemma split_length s sep : length (str.split s sep) = S (str.count s sep).
Proof.
  induction s as [|c s IH]; cbn; [done|].
  destruct (Ascii.eqb c sep); cbn; [by rewrite IH|].
  destruct (str.split s sep); cbn in *; done.
Qed.

Lemma join_split s sep : str.join (String sep EmptyString) (str.split s sep) = s.
Proof.
  induction s as [|c s IH]; cbn [str.split]; [done|].
  destruct (Ascii.eqb_spec c sep) as [->|Hne].
  - pose proof (split_not_nil s sep).
    destruct (str.split s sep) as [|p ps]; [done|].
    change (String sep (str.join (String sep EmptyString) (p :: ps))
            = String sep s).
    by rewrite IH.
  - pose proof (split_not_nil s sep).
    destruct (str.split s sep) as [|p ps]; [done|].
    destruct ps as [|q qs].
    + cbn in *. by rewrite IH.
    + change (String c (str.join (String sep EmptyString) (p :: q :: qs))
              = String c s).
      by rewrite IH.
Qed.

Lemma split_count s sep : Forall (λ p, str.count p sep = 0) (str.split s sep).
Proof.
  induction s as [|c s IH]; cbn [str.split].
  - by repeat constructor.
  - destruct (Ascii.eqb c sep) eqn:Hc.
    + by constructor.
    + destruct (str.split s sep) as [|p ps]; cbn.
      * repeat constructor. cbn. by rewrite Hc.
      * inversion_clear IH. constructor; [|done]. cbn. by rewrite Hc.
Qed.

Lemma split_piece p sep s :
  str.count p sep = 0 →
  str.split (p +:+ String sep s) sep = p :: str.split s sep.
Proof.
  induction p as [|c p IH].
  - intros _. change (EmptyString +:+ String sep s) with (String sep s).
    cbn [str.split]. by rewrite Ascii.eqb_refl.
  - change (String c p +:+ String sep s) with (String c (p +:+ String sep s)).
    cbn [str.split str.count]. destruct (Ascii.eqb c sep); [done|].
    intros Hp. by rewrite IH.
Qed.

Lemma split_no_sep p sep : str.count p sep = 0 → str.split p sep = [p].
Proof.
  induction p as [|c p IH]; cbn; [done|].
  destruct (Ascii.eqb c sep); [done|]. cbn. intros Hp. by rewrite IH.
Qed.

Lemma split_join sep l :
  l ≠ [] → Forall (λ p, str.count p sep = 0) l →
  str.split (str.join (String sep EmptyString) l) sep = l.
Proof.
  intros Hne Hl. induction Hl as [|p l Hp Hl IH]; [done|].
  destruct l as [|q l].
  - by apply split_no_sep.
  - change (str.join (String sep EmptyString) (p :: q :: l))
      with (p +:+ String sep (str.join (String sep EmptyString) (q :: l))).
    rewrite split_piece by done. f_equal. by apply IH.
Qed.

(** X15. The callback splits at every comma and loses nothing: a value
    gives a list, never [None] and never the empty list, with one piece
    more than the value has commas; no piece holds a comma, and the pieces
    joined by commas are the value. *)
Theorem transform_comma_string_to_list_pieces {Ctx Param : Type}
    (ctx : Ctx) (param : Param) (value : string) :
  ∃ str_list,
    transform_comma_string_to_list ctx param (Some value) = Some str_list ∧
    length str_list = S (str.count value ",") ∧
    Forall (λ piece, str.count piece "," = 0) str_list ∧
    str.join "," str_list = value.
Proof.
  eexists. split; [reflexivity|].
  split; [apply split_length|]. split; [apply split_count|apply join_split].
Qed.

(** X16. Pieces without a comma come back as they were joined, the empty
    ones too: the callback on the joined text gives the list of the pieces,
    for every list but the empty one. *)
Theorem transform_comma_string_to_list_join {Ctx Param : Type}
    (ctx : Ctx) (param : Param) (pieces : list string) :
  pieces ≠ [] →
  Forall (λ piece, str.count piece "," = 0) pieces →
  transform_comma_string_to_list ctx param (Some (str.join "," pieces))
  = Some pieces.
Proof.
  intros Hne Hpieces. cbn. f_equal. by apply split_join.
Qed.

Lemma transform_comma_string_to_list_join_witness :
  ["n"; EmptyString; "STY"] ≠ []
  ∧ Forall (λ piece, str.count piece "," = 0) ["n"; EmptyString; "STY"]
  ∧ transform_comma_string_to_list () ()
      (Some (str.join "," ["n"; EmptyString; "STY"]))
    = Some ["n"; EmptyString; "STY"].
Proof.
  assert (H1 : ["n"; EmptyString; "STY"] ≠ []) by discriminate.
  assert (H2 : Forall (λ piece, str.count piece "," = 0)
                 ["n"; EmptyString; "STY"])
    by (repeat constructor).
  refine (conj H1 (conj H2 _)).
  exact (transform_comma_string_to_list_join () () _ H1 H2).
Defined.

(** * [convert] *)

Section convert_properties.
Context {F Lit Psms Peaks : Type}.
Context (resource_filename : string → string → string).
Context (basename_spectralfile : string → string).
Context (float : string → exn + F).
Context (conversion :
  string → string → string → list F → F → F → bool → bool → Lit → Lit →
  bool → bool → F → CM (Psms := Psms) (Peaks := Peaks) (Psms * Peaks)).
Context (pepxmlfile spectralfile : string) (unimodfile : option string).
Context (max_delta_unimod max_delta_ppm : F).
Context (enable_unannotated enable_massdiff : bool).
Context (fragment_types fragment_charges : Lit).
Context (enable_specific_losses enable_unspecific_losses : bool).
Context (max_psm_pep : F).

(** A run of [convert] that reaches its end. *)
Lemma convert_ok_inv psmsfile peaksfile exclude_range_str subsample_fraction w w' :
  convert resource_filename basename_spectralfile float conversion
    pepxmlfile spectralfile unimodfile psmsfile peaksfile exclude_range_str
    max_delta_unimod max_delta_ppm enable_unannotated enable_massdiff
    fragment_types fragment_charges enable_specific_losses
    enable_unspecific_losses subsample_fraction max_psm_pep w = (inr (), w') →
  let run_id := basename_spectralfile spectralfile in
  let psmsfile' := default (run_id +:+ ".psmpkl") psmsfile in
  let peaksfile' := default (run_id +:+ ".peakpkl") peaksfile in
  ∃ temp0 temp1 lo hi psms peaks w1,
    str.split exclude_range_str "," !! 0 = Some temp0 ∧
    str.split exclude_range_str "," !! 1 = Some temp1 ∧
    float temp0 = inr lo ∧ float temp1 = inr hi ∧
    conversion pepxmlfile spectralfile
      (default (resource_filename "easypqp" "data/unimod.xml") unimodfile)
      [lo; hi] max_delta_unimod max_delta_ppm enable_unannotated enable_massdiff
      fragment_types fragment_charges enable_specific_losses
      enable_unspecific_losses max_psm_pep
      {| pickles := pickles w;
         echoed := echoed w ++ ["Info: Converting " +:+ pepxmlfile +:+ "."] |}
    = (inr (psms, peaks), w1) ∧
    pickles w' = <[peaksfile' := peaks_pickle peaks]>
                   (<[psmsfile' := psms_pickle psms]> (pickles w1)) ∧
    echoed w' = echoed w1 ++
      ["Info: PSMs successfully converted and stored in " +:+ psmsfile' +:+ ".";
       "Info: Peaks successfully converted and stored in " +:+ peaksfile' +:+ "."].
Proof.
  unfold convert, mbind, CM_bind, cm_bind, cm_lift, cm_lift_exn, getitem.
  destruct (str.split exclude_range_str "," !! 0) as [temp0|]; [|discriminate].
  destruct (float temp0) as [e|lo] eqn:Hlo; [discriminate|].
  destruct (str.split exclude_range_str "," !! 1) as [temp1|]; [|discriminate].
  destruct (float temp1) as [e|hi] eqn:Hhi; [discriminate|].
  cbn [click_echo].
  destruct unimodfile as [u|]; cbn [default from_option id];
    (destruct (conversion _ _ _ _ _ _ _ _ _ _ _ _ _ _) as [[e|[psms peaks]] w1] eqn:Hconv;
      [discriminate|]);
    unfold to_pickle, click_echo; cbn;
    intros [= <-];
    exists temp0, temp1, lo, hi, psms, peaks, w1;
    destruct psmsfile, peaksfile; cbn; rewrite <- ?app_assoc;
    split_and!; done.
Qed.

(** X17. An exclude range of one field, a number without a comma, ends
    [convert] with an [IndexError] from [temp[1]]: nothing was printed,
    [conversion] was not called and no file was written. *)
Theorem convert_exclude_range_one_field psmsfile peaksfile exclude_range_str
    subsample_fraction w x :
  str.count exclude_range_str "," = 0 →
  float exclude_range_str = inr x →
  convert resource_filename basename_spectralfile float conversion
    pepxmlfile spectralfile unimodfile psmsfile peaksfile exclude_range_str
    max_delta_unimod max_delta_ppm enable_unannotated enable_massdiff
    fragment_types fragment_charges enable_specific_losses
    enable_unspecific_losses subsample_fraction max_psm_pep w
  = (inl (IndexError "list index out of range"), w).
Proof.
  intros Hcount Hfloat.
  unfold convert, mbind, CM_bind, cm_bind, cm_lift, cm_lift_exn, getitem.
  rewrite split_no_sep by done. cbn. by rewrite Hfloat.
Qed.

(** X18. Of the exclude range only the first two fields count: whatever
    follows a second comma is ignored, without a warning. *)
Theorem convert_exclude_range_extra_fields psmsfile peaksfile lo hi rest
    subsample_fraction w :
  str.count lo "," = 0 →
  str.count hi "," = 0 →
  convert resource_filename basename_spectralfile float conversion
    pepxmlfile spectralfile unimodfile psmsfile peaksfile (lo +:+ "," +:+ hi +:+ "," +:+ rest)
    max_delta_unimod max_delta_ppm enable_unannotated enable_massdiff
    fragment_types fragment_charges enable_specific_losses
    enable_unspecific_losses subsample_fraction max_psm_pep w
  = convert resource_filename basename_spectralfile float conversion
    pepxmlfile spectralfile unimodfile psmsfile peaksfile (lo +:+ "," +:+ hi)
    max_delta_unimod max_delta_ppm enable_unannotated enable_massdiff
    fragment_types fragment_charges enable_specific_losses
    enable_unspecific_losses subsample_fraction max_psm_pep w.
Proof.
  intros Hlo Hhi.
  unfold convert, mbind, CM_bind, cm_bind, cm_lift, cm_lift_exn, getitem.
  change (lo +:+ "," +:+ hi +:+ "," +:+ rest)
    with (lo +:+ String "," (hi +:+ String "," rest)).
  change (lo +:+ "," +:+ hi) with (lo +:+ String "," hi).
  rewrite !split_piece by done. rewrite (split_no_sep hi) by done.
  pose proof (split_not_nil rest ",") as Hrest.
  destruct (str.split rest ",") as [|r rs]; [done|]. reflexivity.
Qed.

(** X19. After a run of [convert] that completes, the two fields of the
    exclude range were read as floats, [conversion] was called once, with
    them, after the first message, and of the two frames it returned the
    peaks are in the peaks file and the PSMs in the PSMs file when the two
    paths differ; given the same path for both, the PSMs are overwritten by
    the peaks.  No other file was written after [conversion] returned. *)
Theorem convert_outputs psmsfile peaksfile exclude_range_str subsample_fraction
    w w' :
  convert resource_filename basename_spectralfile float conversion
    pepxmlfile spectralfile unimodfile psmsfile peaksfile exclude_range_str
    max_delta_unimod max_delta_ppm enable_unannotated enable_massdiff
    fragment_types fragment_charges enable_specific_losses
    enable_unspecific_losses subsample_fraction max_psm_pep w = (inr (), w') →
  let run_id := basename_spectralfile spectralfile in
  let psmsfile' := default (run_id +:+ ".psmpkl") psmsfile in
  let peaksfile' := default (run_id +:+ ".peakpkl") peaksfile in
  ∃ temp0 temp1 lo hi psms peaks w1,
    str.split exclude_range_str "," !! 0 = Some temp0 ∧
    str.split exclude_range_str "," !! 1 = Some temp1 ∧
    float temp0 = inr lo ∧ float temp1 = inr hi ∧
    conversion pepxmlfile spectralfile
      (default (resource_filename "easypqp" "data/unimod.xml") unimodfile)
      [lo; hi] max_delta_unimod max_delta_ppm enable_unannotated enable_massdiff
      fragment_types fragment_charges enable_specific_losses
      enable_unspecific_losses max_psm_pep
      {| pickles := pickles w;
         echoed := echoed w ++ ["Info: Converting " +:+ pepxmlfile +:+ "."] |}
    = (inr (psms, peaks), w1) ∧
    pickles w' !! peaksfile' = Some (peaks_pickle peaks) ∧
    (psmsfile' ≠ peaksfile' →
     pickles w' !! psmsfile' = Some (psms_pickle psms)) ∧
    (∀ path, path ≠ psmsfile' → path ≠ peaksfile' →
     pickles w' !! path = pickles w1 !! path).
Proof.
  intros Hrun run_id psmsfile' peaksfile'.
  destruct (convert_ok_inv _ _ _ _ _ _ Hrun)
    as (temp0 & temp1 & lo & hi & psms & peaks & w1
        & H0 & H1 & Hlo & Hhi & Hconv & Hp & _).
  exists temp0, temp1, lo, hi, psms, peaks, w1.
  split_and!; try done.
  - fold run_id psmsfile' peaksfile' in Hp. rewrite Hp.
    by rewrite lookup_insert_eq.
  - intros Hne. fold run_id psmsfile' peaksfile' in Hp. rewrite Hp.
    rewrite lookup_insert_ne by done. by rewrite lookup_insert_eq.
  - intros path Hpath1 Hpath2. fold run_id psmsfile' peaksfile' in Hp.
    rewrite Hp. by rewrite !lookup_insert_ne.
Qed.

(** X20. With the default names both outputs are there: the names made
    from the run id differ, so a run of [convert] that completes leaves the
    PSMs in [run_id.psmpkl] and the peaks in [run_id.peakpkl]. *)
Theorem convert_default_outputs exclude_range_str subsample_fraction w w' :
  convert resource_filename basename_spectralfile float conversion
    pepxmlfile spectralfile unimodfile None None exclude_range_str
    max_delta_unimod max_delta_ppm enable_unannotated enable_massdiff
    fragment_types fragment_charges enable_specific_losses
    enable_unspecific_losses subsample_fraction max_psm_pep w = (inr (), w') →
  let run_id := basename_spectralfile spectralfile in
  ∃ psms peaks,
    pickles w' !! (run_id +:+ ".psmpkl") = Some (psms_pickle psms) ∧
    pickles w' !! (run_id +:+ ".peakpkl") = Some (peaks_pickle peaks).
Proof.
  intros Hrun run_id.
  destruct (convert_ok_inv _ _ _ _ _ _ Hrun)
    as (temp0 & temp1 & lo & hi & psms & peaks & w1 & _ & _ & _ & _ & _ & Hp & _).
  exists psms, peaks. cbn in Hp. fold run_id in Hp. rewrite Hp.
  assert (run_id +:+ ".peakpkl" ≠ run_id +:+ ".psmpkl") as Hne.
  { clear. induction run_id as [|c r IH]; cbn; [done|]. by intros [= ?]. }
  rewrite lookup_insert_ne by done. by rewrite !lookup_insert_eq.
Qed.

(** X21. [--subsample_fraction] has no effect: [convert] takes the option
    and does not hand it to [conversion], so two runs that differ in it
    alone end alike. *)
Theorem convert_ignores_subsample_fraction psmsfile peaksfile exclude_range_str
    subsample_fraction subsample_fraction' w :
  convert resource_filename basename_spectralfile float conversion
    pepxmlfile spectralfile unimodfile psmsfile peaksfile exclude_range_str
    max_delta_unimod max_delta_ppm enable_unannotated enable_massdiff
    fragment_types fragment_charges enable_specific_losses
    enable_unspecific_losses subsample_fraction max_psm_pep w
  = convert resource_filename basename_spectralfile float conversion
    pepxmlfile spectralfile unimodfile psmsfile peaksfile exclude_range_str
    max_delta_unimod max_delta_ppm enable_unannotated enable_massdiff
    fragment_types fragment_charges enable_specific_losses
    enable_unspecific_losses subsample_fraction' max_psm_pep w.
Proof. reflexivity. Qed.

(** X22. The first field of the exclude range is read before the second
    is looked for: when [float] refuses it, [convert] ends with that
    [ValueError], whether or not there is a second field, and nothing was
    printed, converted or written. *)
Theorem convert_exclude_range_not_a_number psmsfile peaksfile exclude_range_str
    subsample_fraction w temp0 e :
  head (str.split exclude_range_str ",") = Some temp0 →
  float temp0 = inl e →
  convert resource_filename basename_spectralfile float conversion
    pepxmlfile spectralfile unimodfile psmsfile peaksfile exclude_range_str
    max_delta_unimod max_delta_ppm enable_unannotated enable_massdiff
    fragment_types fragment_charges enable_specific_losses
    enable_unspecific_losses subsample_fraction max_psm_pep w
  = (inl (Raised e), w).
Proof.
  intros Hhead Hfloat.
  unfold convert, mbind, CM_bind, cm_bind, cm_lift, cm_lift_exn, getitem.
  rewrite <- head_lookup, Hhead. cbn. by rewrite Hfloat.
Qed.

End convert_properties.

Lemma convert_exclude_range_one_field_witness :
  str.count "3.5" "," = 0
  ∧ ex_float "3.5" = inr (7 # 2)%Q
  ∧ ex_convert None None "3.5" ex_convert_world
    = (inl (IndexError "list index out of range"), ex_convert_world).
Proof.
  assert (H1 : str.count "3.5" "," = 0) by reflexivity.
  assert (H2 : ex_float "3.5" = inr (7 # 2)%Q) by reflexivity.
  refine (conj H1 (conj H2 _)).
  exact (convert_exclude_range_one_field (λ _ name, name) id ex_float ex_conversion "interact.pep.xml" "run1" None (1 # 50)%Q 15%Q false false ["b"; "y"] ["1"; "2"] false false (1 # 2)%Q None None "3.5" 1%Q ex_convert_world _ H1 H2).
Defined.

Lemma convert_exclude_range_extra_fields_witness :
  str.count "-1.5" "," = 0
  ∧ str.count "3.5" "," = 0
  ∧ ex_convert None None ("-1.5" +:+ "," +:+ "3.5" +:+ "," +:+ "7,8")
      ex_convert_world
    = ex_convert None None ("-1.5" +:+ "," +:+ "3.5") ex_convert_world.
Proof.
  assert (H1 : str.count "-1.5" "," = 0) by reflexivity.
  assert (H2 : str.count "3.5" "," = 0) by reflexivity.
  refine (conj H1 (conj H2 _)).
  exact (convert_exclude_range_extra_fields (λ _ name, name) id ex_float ex_conversion "interact.pep.xml" "run1" None (1 # 50)%Q 15%Q false false ["b"; "y"] ["1"; "2"] false false (1 # 2)%Q None None "-1.5" "3.5" "7,8" 1%Q ex_convert_world H1 H2).
Defined.

Lemma convert_outputs_witness :
  ex_convert (Some "psms.pkl") (Some "peaks.pkl") "-1.5,3.5" ex_convert_world
  = (inr (),
     (ex_convert (Some "psms.pkl") (Some "peaks.pkl") "-1.5,3.5"
        ex_convert_world).2)
  ∧ ∃ temp0 temp1 lo hi psms peaks w1,
      str.split "-1.5,3.5" "," !! 0 = Some temp0 ∧
      str.split "-1.5,3.5" "," !! 1 = Some temp1 ∧
      ex_float temp0 = inr lo ∧ ex_float temp1 = inr hi ∧
      ex_conversion "interact.pep.xml" "run1" "data/unimod.xml" [lo; hi]
        (1 # 50)%Q 15%Q false false ["b"; "y"] ["1"; "2"] false false
        (1 # 2)%Q
        {| pickles := pickles ex_convert_world;
           echoed := echoed ex_convert_world
                     ++ ["Info: Converting " +:+ "interact.pep.xml" +:+ "."] |}
      = (inr (psms, peaks), w1) ∧
      pickles (ex_convert (Some "psms.pkl") (Some "peaks.pkl") "-1.5,3.5"
                 ex_convert_world).2 !! "peaks.pkl" = Some (peaks_pickle peaks) ∧
      ("psms.pkl" ≠ "peaks.pkl" →
       pickles (ex_convert (Some "psms.pkl") (Some "peaks.pkl") "-1.5,3.5"
                  ex_convert_world).2 !! "psms.pkl" = Some (psms_pickle psms)) ∧
      (∀ path, path ≠ "psms.pkl" → path ≠ "peaks.pkl" →
       pickles (ex_convert (Some "psms.pkl") (Some "peaks.pkl") "-1.5,3.5"
                  ex_convert_world).2 !! path = pickles w1 !! path).
Proof.
  assert (H1 : ex_convert (Some "psms.pkl") (Some "peaks.pkl") "-1.5,3.5"
                 ex_convert_world
               = (inr (),
                  (ex_convert (Some "psms.pkl") (Some "peaks.pkl") "-1.5,3.5"
                     ex_convert_world).2))
    by (vm_compute; reflexivity).
  refine (conj H1 _).
  exact (convert_outputs (λ _ name, name) id ex_float ex_conversion
           "interact.pep.xml" "run1" None (1 # 50)%Q 15%Q false false
           ["b"; "y"] ["1"; "2"] false false (1 # 2)%Q
           (Some "psms.pkl") (Some "peaks.pkl") "-1.5,3.5" 1%Q
           ex_convert_world _ H1).
Defined.

Lemma convert_default_outputs_witness :
  ex_convert None None "-1.5,3.5" ex_convert_world
  = (inr (), (ex_convert None None "-1.5,3.5" ex_convert_world).2)
  ∧ ∃ psms peaks,
      pickles (ex_convert None None "-1.5,3.5" ex_convert_world).2
        !! ("run1" +:+ ".psmpkl") = Some (psms_pickle psms) ∧
      pickles (ex_convert None None "-1.5,3.5" ex_convert_world).2
        !! ("run1" +:+ ".peakpkl") = Some (peaks_pickle peaks).
Proof.
  assert (H1 : ex_convert None None "-1.5,3.5" ex_convert_world
               = (inr (), (ex_convert None None "-1.5,3.5" ex_convert_world).2))
    by (vm_compute; reflexivity).
  refine (conj H1 _).
  exact (convert_default_outputs (λ _ name, name) id ex_float ex_conversion "interact.pep.xml" "run1" None (1 # 50)%Q 15%Q false false ["b"; "y"] ["1"; "2"] false false (1 # 2)%Q "-1.5,3.5" 1%Q ex_convert_world _ H1).
Defined.

Lemma convert_exclude_range_not_a_number_witness :
  head (str.split "abc" ",") = Some "abc"
  ∧ ex_float "abc"
    = inl (ValueError "could not convert string to float: 'abc'")
  ∧ ex_convert None None "abc" ex_convert_world
    = (inl (Raised (ValueError "could not convert string to float: 'abc'")),
       ex_convert_world).
Proof.
  assert (H1 : head (str.split "abc" ",") = Some "abc") by reflexivity.
  assert (H2 : ex_float "abc"
               = inl (ValueError "could not convert string to float: 'abc'"))
    by reflexivity.
  refine (conj H1 (conj H2 _)).
  exact (convert_exclude_range_not_a_number (λ _ name, name) id ex_float
           ex_conversion "interact.pep.xml" "run1" None (1 # 50)%Q 15%Q false
           false ["b"; "y"] ["1"; "2"] false false (1 # 2)%Q None None "abc"
           1%Q ex_convert_world _ _ H1 H2).
Defined.
